(** * Simplenote list filtering and projection: a shallow embedding

    The development follows two source modules:

    - [lib/search/index.ts]: the middleware that forwards index and filter
      commands to the search worker and turns its replies (or the result of
      the synchronous matcher) into a [filterNotes] action;
    - [lib/note-list/index.tsx]: row heights and their cache, the composite
      note list, the highlighted index and the keyboard shortcuts.

    JavaScript numbers that the code uses as indices and pixel counts are
    integers here ([Z]); the measured text width is a rational ([Q]).
    [null] and [undefined] are [None]. *)

From Stdlib Require Import ZArith QArith Qround Ascii Lia.
From stdpp Require Import gmap strings list.

Local Open Scope Z_scope.

(** ** Records shared by both modules ([lib/types]) *)

Definition EntityId := string.

Record Note := mkNote {
  content : string;
  systemTags : list string;
}.

Record NoteEntity := mkEntity {
  id : EntityId;
  data : Note;
}.

#[global] Instance Note_eq_dec : EqDecision Note.
Proof. solve_decision. Defined.

#[global] Instance NoteEntity_eq_dec : EqDecision NoteEntity.
Proof. solve_decision. Defined.

(** ** The search middleware ([lib/search/index.ts]) *)

Module Search.

(** Messages posted on [searchProcessor].  A field that the posted object
    does not carry is [None]; [openedTag: null] is [Some None]. *)
Inductive WorkerMsg :=
| UpdateNote (noteId : EntityId) (noteData : Note)
| FilterNotesCmd (openedTag : option (option string))
                 (showTrash : option bool)
                 (searchQuery : option string).

(** The actions the middleware looks at, and [actions.ui.filterNotes],
    which it creates.  [OtherAction] stands for every other action type. *)
Inductive Action :=
| NotesLoaded (notes : list NoteEntity)
| RemoteNoteUpdate (noteId : EntityId) (noteData : Note)
| OpenTag (tagName : string)
| SelectTrash
| ShowAllNotes
| SearchAction (searchQuery : string)
| DeleteNoteForever (previousIndex : Z)
| RestoreNote (previousIndex : Z)
| TrashNote (previousIndex : Z)
| AuthChanged
| FilterNotes (notes : list NoteEntity) (previousIndex : option Z)
| OtherAction (type : string).

(** [event.data] of a message received on [searchProcessor]. *)
Inductive Reply :=
| FilterNotesReply (noteIds : gset EntityId)
| OtherReply (action : string).

(** The part of the store state that the middleware reads:
    [appState.notes], [null] until the notes are loaded. *)
Record AppState := mkAppState {
  notes : option (list NoteEntity);
}.

Definition emptyList : list NoteEntity := [].

Section Middleware.

(** State of the [./worker] module, whose [updateFilter] is the
    synchronous matcher; the module is not part of this development. *)
Context {W : Type}.
Variable updateFilter : W -> string -> gset EntityId.

(** What the rest of the middleware chain and the reducers do to the
    part of the store state read here. *)
Variable reduce : AppState -> Action -> AppState.

(** The closure state of [middleware] together with the store and the
    two effect logs: messages posted to the worker and actions given to
    [store.dispatch]. *)
Record Coordinator := mkCoordinator {
  hasInitialized : bool;
  worker : W;
  appState : AppState;
  posted : list WorkerMsg;
  dispatched : list Action;
}.

Definition init (w : W) (s : AppState) : Coordinator :=
  {| hasInitialized := false; worker := w; appState := s;
     posted := []; dispatched := [] |}.

Definition postMessage (m : WorkerMsg) (c : Coordinator) : Coordinator :=
  {| hasInitialized := hasInitialized c; worker := worker c;
     appState := appState c;
     posted := posted c ++ [m]; dispatched := dispatched c |}.

(** [store.dispatch(a)] for an action the switch below ignores: the
    action reaches the reducers and nothing is posted. *)
Definition dispatch (a : Action) (c : Coordinator) : Coordinator :=
  {| hasInitialized := hasInitialized c; worker := worker c;
     appState := reduce (appState c) a;
     posted := posted c; dispatched := dispatched c ++ [a] |}.

Definition setInitialized (c : Coordinator) : Coordinator :=
  {| hasInitialized := true; worker := worker c;
     appState := appState c;
     posted := posted c; dispatched := dispatched c |}.

(** [next(action)] *)
Definition next (a : Action) (c : Coordinator) : Coordinator :=
  {| hasInitialized := hasInitialized c; worker := worker c;
     appState := reduce (appState c) a;
     posted := posted c; dispatched := dispatched c |}.

(** [appState.notes?.filter(({ id }) => noteIds.has(id)) || emptyList] *)
Definition resolveNotes (live : option (list NoteEntity))
    (noteIds : gset EntityId) : list NoteEntity :=
  match live with
  | Some ns => filter (λ n, id n ∈ noteIds) ns
  | None => emptyList
  end.

Definition setFilteredNotes (noteIds : gset EntityId)
    (previousIndex : option Z) (c : Coordinator) : Coordinator :=
  dispatch
    (FilterNotes (resolveNotes (notes (appState c)) noteIds) previousIndex)
    c.

(** [searchProcessor.onmessage] *)
Definition onmessage (r : Reply) (c : Coordinator) : Coordinator :=
  match r with
  | FilterNotesReply noteIds => setFilteredNotes noteIds None c
  | OtherReply _ => c
  end.

(** [action.notes.forEach(note => searchProcessor.postMessage(...))] *)
Fixpoint postAll (ns : list NoteEntity) (c : Coordinator) : Coordinator :=
  match ns with
  | [] => c
  | n :: rest => postAll rest (postMessage (UpdateNote (id n) (data n)) c)
  end.

(** The function [middleware] returns: [next => action => ...]. *)
Definition middleware (a : Action) (c0 : Coordinator) : Coordinator :=
  let c := next a c0 in
  match a with
  | NotesLoaded ns =>
      let c1 := if hasInitialized c then c
                else setInitialized (postAll ns c) in
      postMessage (FilterNotesCmd None None None) c1
  | RemoteNoteUpdate noteId d => postMessage (UpdateNote noteId d) c
  | OpenTag name =>
      postMessage (FilterNotesCmd (Some (Some name)) None None) c
  | SelectTrash =>
      postMessage (FilterNotesCmd (Some None) (Some true) None) c
  | ShowAllNotes =>
      postMessage (FilterNotesCmd (Some None) (Some false) None) c
  | SearchAction q => postMessage (FilterNotesCmd None None (Some q)) c
  | DeleteNoteForever previousIndex
  | RestoreNote previousIndex
  | TrashNote previousIndex =>
      setFilteredNotes (updateFilter (worker c) "fullSearch")
        (Some previousIndex) c
  | AuthChanged =>
      setFilteredNotes (updateFilter (worker c) "fullSearch") None c
  | FilterNotes _ _ | OtherAction _ => c
  end.

(** Everything that can happen to the coordinator in a session: an
    action passes through the middleware, a reply arrives from the
    worker, or the [./worker] module changes its own state. *)
Inductive Event :=
| Dispatched (a : Action)
| Received (r : Reply)
| WorkerMoved (w : W).

Definition setWorker (w : W) (c : Coordinator) : Coordinator :=
  {| hasInitialized := hasInitialized c; worker := w;
     appState := appState c;
     posted := posted c; dispatched := dispatched c |}.

Definition step (c : Coordinator) (e : Event) : Coordinator :=
  match e with
  | Dispatched a => middleware a c
  | Received r => onmessage r c
  | WorkerMoved w => setWorker w c
  end.

Definition run (c : Coordinator) (es : list Event) : Coordinator :=
  foldl step c es.

Definition isUpdateNote (m : WorkerMsg) : bool :=
  match m with UpdateNote _ _ => true | FilterNotesCmd _ _ _ => false end.

End Middleware.

(** **** Kinds of events, for statements about whole sessions *)

Definition isFilterNotes (a : Action) : bool :=
  match a with FilterNotes _ _ => true | _ => false end.

Definition isNotesLoaded {W} (e : @Event W) : bool :=
  match e with Dispatched (NotesLoaded _) => true | _ => false end.

Definition isRemoteNoteUpdate {W} (e : @Event W) : bool :=
  match e with Dispatched (RemoteNoteUpdate _ _) => true | _ => false end.

(** The events on which the middleware calls [setFilteredNotes]. *)
Definition callsSetFilteredNotes {W} (e : @Event W) : bool :=
  match e with
  | Received (FilterNotesReply _) => true
  | Dispatched (DeleteNoteForever _ | RestoreNote _ | TrashNote _
                | AuthChanged) => true
  | _ => false
  end.

End Search.

(** ** The note list ([lib/note-list/index.tsx]) *)

Module NoteList.

(** *** Numbers *)

(** The values a row height can take: an integer number of pixels, or one
    of the three non-finite values of a JavaScript number. *)
Inductive JsNumber :=
| Num (z : Z)
| PosInfinity
| NegInfinity
| NaN.

#[global] Instance JsNumber_eq_dec : EqDecision JsNumber.
Proof. solve_decision. Defined.

(** [Math.ceil(a / d)] for a measured width [a] and an integer [d]. *)
Definition ceilDiv (a : Q) (d : Z) : JsNumber :=
  if d =? 0 then
    if Qlt_le_dec 0 a then PosInfinity
    else if Qlt_le_dec a 0 then NegInfinity
    else NaN
  else Num (Qceiling (a / inject_Z d)).

(** [Math.min(m, x)] with [m] an integer. *)
Definition minWith (m : Z) (x : JsNumber) : JsNumber :=
  match x with
  | Num z => Num (Z.min m z)
  | PosInfinity => Num m
  | NegInfinity => NegInfinity
  | NaN => NaN
  end.

(** [b + k * x] with [b] an integer and [k] a positive integer. *)
Definition affine (b k : Z) (x : JsNumber) : JsNumber :=
  match x with
  | Num z => Num (b + k * z)
  | other => other
  end.

(** *** Constants *)

Definition ROW_HEIGHT_BASE : Z := 24 + 18.
Definition ROW_HEIGHT_LINE : Z := 21.
Definition HEADER_HEIGHT : Z := 28.
Definition TAG_ROW_HEIGHT : Z := 40.
Definition EMPTY_DIV_HEIGHT : Z := 200.

Inductive ListDisplayMode := comfy | condensed | expanded.

#[global] Instance ListDisplayMode_eq_dec : EqDecision ListDisplayMode.
Proof. solve_decision. Defined.

Definition maxPreviewLines (noteDisplay : ListDisplayMode) : Z :=
  match noteDisplay with
  | comfy => 1
  | condensed => 0
  | expanded => 4
  end.

(** *** Rows of the composite list *)

(** An entry of [notesWithTagSuggestions]: a note, or one of the strings
    ['notes-header'], ['tag-suggestions'], ['no-notes']. *)
Inductive Row :=
| NoteRow (note : NoteEntity)
| NotesHeader
| TagSuggestions
| NoNotes.

Definition createCompositeNoteList (notes : list NoteEntity)
    (searchQuery : string) (tagResultsFound : nat) : list Row :=
  if (String.length searchQuery =? 0)%nat || (tagResultsFound =? 0)%nat
  then NoteRow <$> notes
  else TagSuggestions :: NotesHeader ::
       (if (0 <? length notes)%nat then NoteRow <$> notes else [NoNotes]).

(** *** Row heights and their cache *)

(** [previewCache]: note id to [[width, noteDisplay, preview, height]]. *)
Definition CacheEntry : Type := Z * ListDisplayMode * string * JsNumber.

(** The module-level cache and the number of calls made so far to
    [context.measureText]. *)
Record HeightState := mkHeightState {
  previewCache : gmap EntityId CacheEntry;
  measurements : nat;
}.

Definition M (A : Type) : Type := HeightState -> A * HeightState.

Definition ret {A} (a : A) : M A := λ s, (a, s).
Definition bind {A B} (m : M A) (k : A -> M B) : M B :=
  λ s, let '(a, s') := m s in k a s'.

#[global] Instance M_ret : MRet M := @ret.
#[global] Instance M_bind : MBind M := λ A B k m, bind m k.

Definition cacheGet (key : EntityId) : M (option CacheEntry) :=
  λ s, (previewCache s !! key, s).

Definition cacheSet (key : EntityId) (e : CacheEntry) : M unit :=
  λ s, (tt, {| previewCache := <[key := e]> (previewCache s);
               measurements := measurements s |}).

Section Heights.

(** [context.measureText(text).width] on a canvas whose width was set to
    the second argument; the canvas belongs to the browser. *)
Variable measureText : string -> Z -> Q.

(** The preview of [getNoteTitleAndPreview(note)]; that module is not
    part of this development. *)
Variable getPreview : NoteEntity -> string.

Definition getTextWidth (text : string) (width : Z) : M Q :=
  λ s, (measureText text width,
        {| previewCache := previewCache s;
           measurements := S (measurements s) |}).

Definition computeRowHeight (width : Z) (noteDisplay : ListDisplayMode)
    (preview : string) : M JsNumber :=
  if decide (condensed = noteDisplay) then ret (Num ROW_HEIGHT_BASE)
  else
    textWidth ← getTextWidth preview (width - 24);
    let lines := ceilDiv textWidth (width - 24) in
    ret (affine ROW_HEIGHT_BASE ROW_HEIGHT_LINE
           (minWith (maxPreviewLines noteDisplay) lines)).

(** [rowHeightCache(f)(notes, { noteDisplay, tagResultsFound, width })]
    applied to the row [notes[index]]. *)
Definition rowHeightOf (f : Z -> ListDisplayMode -> string -> M JsNumber)
    (noteDisplay : ListDisplayMode) (tagResultsFound : nat) (width : Z)
    (row : Row) : M JsNumber :=
  match row with
  | NotesHeader => ret (Num HEADER_HEIGHT)
  | TagSuggestions =>
      ret (Num (HEADER_HEIGHT + TAG_ROW_HEIGHT * Z.of_nat tagResultsFound))
  | NoNotes => ret (Num EMPTY_DIV_HEIGHT)
  | NoteRow note =>
      let preview := getPreview note in
      let key := id note in
      cached ← cacheGet key;
      match cached with
      | Some (cWidth, cNoteDisplay, cPreview, cHeight) =>
          if bool_decide (cWidth = width)
             && bool_decide (cNoteDisplay = noteDisplay)
             && bool_decide (cPreview = preview)
          then ret cHeight
          else
            height ← f width noteDisplay preview;
            cacheSet key (width, noteDisplay, preview, height);;
            ret height
      | None =>
          height ← f width noteDisplay preview;
          cacheSet key (width, noteDisplay, preview, height);;
          ret height
      end
  end.

(** The row function itself; an index outside the list has no row to
    measure and is [None]. *)
Definition rowHeightCache (f : Z -> ListDisplayMode -> string -> M JsNumber)
    (notes : list Row) (noteDisplay : ListDisplayMode)
    (tagResultsFound : nat) (width : Z) (index : nat)
    : M (option JsNumber) :=
  match notes !! index with
  | Some row =>
      h ← rowHeightOf f noteDisplay tagResultsFound width row;
      ret (Some h)
  | None => ret None
  end.

Definition getRowHeight := rowHeightCache computeRowHeight.

End Heights.

(** *** The highlighted index *)

(** [this.state.selected]; both fields start as [null]. *)
Record Selected := mkSelected {
  noteId : option EntityId;
  index : option Z;
}.

Definition initialSelected : Selected :=
  {| noteId := None; index := None |}.

(** A tag object; [===] on objects compares identity, which [tagRef]
    stands for. *)
Record TagEntity := mkTag {
  tagRef : positive;
  tagName : string;
}.

(** The props the selection code reads. *)
Record Props := mkProps {
  notes : list NoteEntity;
  selectedNote : option NoteEntity;
  openedTag : option TagEntity;
  showTrash : bool;
}.

(** Truthiness of a number-or-null and of a string. *)
Definition truthyIndex (i : option Z) : bool :=
  match i with
  | Some z => negb (z =? 0)
  | None => false
  end.

Definition truthyId (s : EntityId) : bool :=
  negb (String.eqb s EmptyString).

(** [null] used as a number is [0]. *)
Definition toNumber (i : option Z) : Z := default 0 i.

(** [list[i]] for a number [i]: [undefined] outside the list. *)
Definition at_ {A} (l : list A) (i : Z) : option A :=
  if i <? 0 then None else l !! Z.to_nat i.

(** [list[i]] where [i] may be [null]: the property named ["null"] is
    absent from an array. *)
Definition atIndex {A} (l : list A) (i : option Z) : option A :=
  match i with
  | Some z => at_ l z
  | None => None
  end.

(** [Array.prototype.findIndex]: the first position whose element
    satisfies [p], or [-1]. *)
Fixpoint findIndexFrom {A} (p : A -> bool) (l : list A) (start : Z) : Z :=
  match l with
  | [] => -1
  | x :: rest => if p x then start else findIndexFrom p rest (start + 1)
  end.

Definition findIndex {A} (p : A -> bool) (l : list A) : Z :=
  findIndexFrom p l 0.

Definition sameTag (a b : option TagEntity) : bool :=
  match a, b with
  | None, None => true
  | Some x, Some y => bool_decide (tagRef x = tagRef y)
  | _, _ => false
  end.

(** [x?.id] *)
Definition idOf (x : option NoteEntity) : option EntityId := id <$> x.

(** [selectedNote && selectedNote.id === notes[index]?.id] *)
Definition selectedIsAt (selectedNote : option NoteEntity)
    (notes : list NoteEntity) (i : option Z) : bool :=
  bool_decide (is_Some selectedNote)
  && bool_decide (idOf selectedNote = idOf (atIndex notes i)).

(** [item => item?.id === selectedNote?.id] on the entries of the list *)
Definition isSelected (selectedNote : option NoteEntity)
    (item : NoteEntity) : bool :=
  bool_decide (Some (id item) = idOf selectedNote).

Definition getHighlightedIndex (props : Props) (state : Selected)
    : option Z :=
  let notes := notes props in
  let selectedNote := selectedNote props in
  let index := index state in
  if (length notes =? 0)%nat then None
  else if bool_decide (selectedNote = None) && negb (truthyIndex index) then
    let firstNote := findIndex (λ item, truthyId (id item)) notes in
    if -1 <? firstNote then Some firstNote else None
  else if selectedIsAt selectedNote notes index then index
  else
    let noteAt := findIndex (isSelected selectedNote) notes in
    if bool_decide (is_Some selectedNote) && (-1 <? noteAt) then Some noteAt
    else if bool_decide (is_Some selectedNote) then
      (* different note, same index *)
      Some (Z.min (toNumber index) (Z.of_nat (length notes) - 1))
    else
      (* no selected note here, but a previous index *)
      index.

(** What [UNSAFE_componentWillReceiveProps] does: it leaves the state
    alone, or sets it, after calling [this.props.onSelectNote] with the
    listed ids; or it stops on a [TypeError] when it reads [.id] of an
    absent list entry. *)
Inductive Received :=
| Unchanged
| SetState (selected : Selected) (onSelectNote : list EntityId)
| TypeError.

(** The condition under which [UNSAFE_componentWillReceiveProps] returns
    at once, without resolving the highlighted index. *)
Definition selectionInPlace (thisProps nextProps : Props)
    (state : Selected) : bool :=
  truthyIndex (index state)
  && selectedIsAt (selectedNote nextProps) (notes nextProps) (index state)
  && bool_decide (showTrash nextProps = showTrash thisProps)
  && sameTag (openedTag nextProps) (openedTag thisProps).

Definition componentWillReceiveProps (thisProps nextProps : Props)
    (state : Selected) : Received :=
  let notes := notes nextProps in
  let selectedNote := selectedNote nextProps in
  if selectionInPlace thisProps nextProps state then Unchanged
  else
    match getHighlightedIndex nextProps state with
    | None => SetState {| noteId := None; index := None |} []
    | Some nextIndex =>
        match at_ notes nextIndex with
        | None => TypeError
        | Some target =>
            let calls :=
              match selectedNote with
              | None => [id target]
              | Some s =>
                  if bool_decide (id s = id target) then []
                  else [id target]
              end in
            SetState {| noteId := Some (id target);
                        index := Some nextIndex |} calls
        end
    end.

(** *** Keyboard shortcuts *)

Record KeyEvent := mkKeyEvent {
  ctrlKey : bool;
  metaKey : bool;
  shiftKey : bool;
  key : string;
}.

(** What [handleShortcut] did: its return value, the id given to
    [this.props.onSelectNote] if it was called, and whether it called
    [event.stopPropagation()] and [event.preventDefault()]. *)
Record Handled := mkHandled {
  returned : bool;
  selectRequest : option EntityId;
  stopPropagation : bool;
  preventDefault : bool;
}.

Definition passThrough : Handled :=
  {| returned := true; selectRequest := None;
     stopPropagation := false; preventDefault := false |}.

Definition selectAndStop (noteId : EntityId) : Handled :=
  {| returned := false; selectRequest := Some noteId;
     stopPropagation := true; preventDefault := true |}.

(** [notes[i]?.id], kept only when truthy. *)
Definition validIdAt (notes : list NoteEntity) (i : Z) : option EntityId :=
  match at_ notes i with
  | Some n => if truthyId (id n) then Some (id n) else None
  | None => None
  end.

Section Shortcuts.

(** [String.prototype.toLowerCase] *)
Variable toLowerCase : string -> string.

Definition cmdOrCtrl (event : KeyEvent) : bool :=
  ctrlKey event || metaKey event.

Definition isPreviousChord (event : KeyEvent) : bool :=
  cmdOrCtrl event && shiftKey event
  && (String.eqb (key event) "ArrowUp"
      || String.eqb (toLowerCase (key event)) "k").

Definition isNextChord (event : KeyEvent) : bool :=
  cmdOrCtrl event && shiftKey event
  && (String.eqb (key event) "ArrowDown"
      || String.eqb (toLowerCase (key event)) "j").

Definition handleShortcut (props : Props) (state : Selected)
    (event : KeyEvent) : Handled :=
  let notes := notes props in
  let index := toNumber (index state) in
  let highlightedIndex := getHighlightedIndex props state in
  if isPreviousChord event then
    if bool_decide (highlightedIndex = Some (-1)) then passThrough
    else if index <? 0 then passThrough
    else
      match validIdAt notes (index - 1) with
      | None => passThrough
      | Some neighbour => selectAndStop neighbour
      end
  else if isNextChord event then
    if bool_decide (highlightedIndex = Some (-1)) then passThrough
    else if Z.of_nat (length notes) <=? index then passThrough
    else
      match validIdAt notes (index + 1) with
      | None => passThrough
      | Some neighbour => selectAndStop neighbour
      end
  else passThrough.

End Shortcuts.

(** [onSelectNote] of [mapDispatchToProps]: the ids for which
    [loadAndSelectNote] is dispatched to the store. *)
Definition onSelectNote (noteId : option EntityId) : list EntityId :=
  match noteId with
  | Some i => if truthyId i then [i] else []
  | None => []
  end.

(** *** What [render] hands to the list *)

(** [notesWithTagSuggestions.length - notes.length] *)
Definition specialRows (notesWithTagSuggestions : list Row)
    (notes : list NoteEntity) : Z :=
  Z.of_nat (length notesWithTagSuggestions) - Z.of_nat (length notes).

(** [highlightedIndex !== null ? highlightedIndex + specialRows : null],
    with [highlightedIndex] the index of the state. *)
Definition adjustedHighlight (state : Selected) (specialRows : Z)
    : option Z :=
  match index state with
  | Some i => Some (i + specialRows)
  | None => None
  end.

(** ['note-list-item-selected'] in [renderNote]:
    [!isSmallScreen && highlightedIndex === index]. *)
Definition isRowSelected (isSmallScreen : bool)
    (highlightedIndex : option Z) (index : Z) : bool :=
  negb isSmallScreen && bool_decide (highlightedIndex = Some index).

(** [estimatedRowSize] of the list. *)
Definition estimatedRowSize (noteDisplay : ListDisplayMode) : Z :=
  ROW_HEIGHT_BASE + ROW_HEIGHT_LINE * maxPreviewLines noteDisplay.

(** *** Cache entries that agree with the computation *)

(** The height [computeRowHeight] returns; it does not depend on the
    cache. *)
Definition uncachedHeight (measureText : string -> Z -> Q) (width : Z)
    (noteDisplay : ListDisplayMode) (preview : string) : JsNumber :=
  (computeRowHeight measureText width noteDisplay preview
     (mkHeightState ∅ 0)).1.

(** Every stored height is the height of the stored width, display mode
    and preview. *)
Definition coherent (measureText : string -> Z -> Q)
    (cache : gmap EntityId CacheEntry) : Prop :=
  ∀ key width noteDisplay preview height,
    cache !! key = Some (width, noteDisplay, preview, height) →
    height = uncachedHeight measureText width noteDisplay preview.

End NoteList.

(** * Sample data

    Concrete notes, a store and a worker used to run the definitions. *)

Module Samples.
Import Search.

Definition noteA : NoteEntity := mkEntity "a" (mkNote "cat one" []).
Definition noteB : NoteEntity := mkEntity "b" (mkNote "dog" []).
Definition noteC : NoteEntity := mkEntity "c" (mkNote "cat two" ["pinned"]).
Definition noteX : NoteEntity := mkEntity "x" (mkNote "fresh" []).

(** A reducer that stores loaded notes and ignores the rest. *)
Definition sampleReduce (s : AppState) (a : Action) : AppState :=
  match a with
  | NotesLoaded ns => mkAppState (Some ns)
  | _ => s
  end.

(** A matcher state that is the set of matching ids itself. *)
Definition sampleUpdateFilter (w : gset EntityId) (scope : string)
    : gset EntityId := w.

Definition loaded : Coordinator :=
  {| hasInitialized := false;
     worker := ({[ "c"; "a" ]} : gset EntityId);
     appState := mkAppState (Some [noteA; noteB; noteC]);
     posted := []; dispatched := [] |}.

Definition notLoaded : Coordinator :=
  init ({[ "c"; "a" ]} : gset EntityId) (mkAppState None).

(** A text measure of eight pixels per character, whatever the canvas. *)
Definition monospace (text : string) (canvasWidth : Z) : Q :=
  inject_Z (8 * Z.of_nat (String.length text)).

Definition samplePreview (n : NoteEntity) : string := content (data n).

(** Lower case on the letters [A] to [Z]. *)
Definition lowerAscii (c : ascii) : ascii :=
  let n := nat_of_ascii c in
  if (65 <=? n)%nat && (n <=? 90)%nat then ascii_of_nat (n + 32) else c.

Fixpoint asciiLower (s : string) : string :=
  match s with
  | EmptyString => EmptyString
  | String c rest => String (lowerAscii c) (asciiLower rest)
  end.

Definition emptyCache : NoteList.HeightState :=
  NoteList.mkHeightState ∅ 0.

End Samples.

(** * Properties of the search middleware *)

Module SearchFacts.
Import Search.

Section Middleware.

Context {W : Type}.
Variable updateFilter : W -> string -> gset EntityId.
Variable reduce : AppState -> Action -> AppState.

Abbreviation Coordinator := (@Coordinator W).
Abbreviation middleware := (middleware updateFilter reduce).
Abbreviation onmessage := (onmessage reduce).
Abbreviation setFilteredNotes := (setFilteredNotes reduce).
Abbreviation step := (step updateFilter reduce).
Abbreviation run := (run updateFilter reduce).

(** **** The effect logs *)

Lemma posted_postAll (ns : list NoteEntity) (c : Coordinator) :
  posted (postAll ns c)
  = posted c ++ ((λ n, UpdateNote (id n) (data n)) <$> ns).
Proof.
  revert c. induction ns as [|n ns IH]; intros c; simpl.
  - by rewrite app_nil_r.
  - rewrite IH. simpl. by rewrite <- app_assoc.
Qed.

Lemma hasInitialized_postAll (ns : list NoteEntity) (c : Coordinator) :
  hasInitialized (postAll ns c) = hasInitialized c.
Proof. revert c. induction ns as [|n ns IH]; intros c; simpl; [done|]. by rewrite IH. Qed.

Lemma dispatched_postAll (ns : list NoteEntity) (c : Coordinator) :
  dispatched (postAll ns c) = dispatched c.
Proof. revert c. induction ns as [|n ns IH]; intros c; simpl; [done|]. by rewrite IH. Qed.

(** **** Resolving ids against the live notes *)

Lemma resolveNotes_sublist (live : list NoteEntity) (noteIds : gset EntityId) :
  sublist (resolveNotes (Some live) noteIds) live.
Proof. apply sublist_filter. Qed.

Lemma resolveNotes_elem (live : list NoteEntity) (noteIds : gset EntityId)
    (n : NoteEntity) :
  n ∈ resolveNotes (Some live) noteIds ↔ n ∈ live ∧ id n ∈ noteIds.
Proof. unfold resolveNotes. rewrite list_elem_of_filter. tauto. Qed.

Lemma resolveNotes_ids (live : list NoteEntity) (noteIds : gset EntityId)
    (i : EntityId) :
  i ∈ (id <$> resolveNotes (Some live) noteIds)
  ↔ i ∈ noteIds ∧ i ∈ (id <$> live).
Proof.
  rewrite !list_elem_of_fmap. split.
  - intros (n & -> & Hn). apply resolveNotes_elem in Hn as [Hl Hi].
    split; [done|]. by exists n.
  - intros (Hi & n & -> & Hn). exists n. split; [done|].
    by apply resolveNotes_elem.
Qed.

(** **** The one-shot flag *)

Lemma middleware_keeps_initialized (a : Action) (c : Coordinator) :
  hasInitialized c = true -> hasInitialized (middleware a c) = true.
Proof.
  intros H. destruct a; simpl; try done.
  by rewrite H.
Qed.

Lemma step_keeps_initialized (e : Event) (c : Coordinator) :
  hasInitialized c = true -> hasInitialized (step c e) = true.
Proof.
  intros H. destruct e as [a|r|w]; simpl; [|by destruct r|done].
  by apply middleware_keeps_initialized.
Qed.

Lemma run_keeps_initialized (es : list Event) (c : Coordinator) :
  hasInitialized c = true -> hasInitialized (run c es) = true.
Proof.
  revert c. induction es as [|e es IH]; intros c H; simpl; [done|].
  apply IH. by apply step_keeps_initialized.
Qed.

Lemma notesLoaded_initializes (ns : list NoteEntity) (c : Coordinator) :
  hasInitialized (middleware (NotesLoaded ns) c) = true.
Proof.
  unfold Search.middleware. simpl.
  destruct (hasInitialized c) eqn:E; simpl; [exact E | reflexivity].
Qed.

Lemma run_app (es1 es2 : list Event) (c : Coordinator) :
  run c (es1 ++ es2) = run (run c es1) es2.
Proof. apply foldl_app. Qed.

(** The first load of a session posts one [updateNote] per note, in
    order, and then one bare [filterNotes]. *)
Lemma first_load_posts_corpus (ns : list NoteEntity) (c : Coordinator) :
  hasInitialized c = false ->
  posted (middleware (NotesLoaded ns) c)
  = posted c ++ ((λ n, UpdateNote (id n) (data n)) <$> ns)
      ++ [FilterNotesCmd None None None].
Proof.
  intros H. unfold Search.middleware. simpl. rewrite H. simpl.
  rewrite posted_postAll. simpl. by rewrite <- app_assoc.
Qed.

(** **** Filter replies *)

(** C1. A filter reply carrying the ids [noteIds], received while the
    live notes are [live], is one call of [store.dispatch]: a single
    [filterNotes] action that carries both the filtered list and the
    selection hint (absent for a reply, [hint] for any other call of
    [setFilteredNotes]); nothing is posted to the worker.  The list is
    [live] restricted to the ids of the reply: it is a sublist of [live],
    so its entries come in the order of [live]; a note is in it exactly
    when it is in [live] and its id is in the reply; and an id of the
    reply that no live note has occurs in none of its entries. *)
Theorem filter_reply_restricts_live_notes (c : Coordinator)
    (live : list NoteEntity) (noteIds : gset EntityId) (hint : option Z) :
  notes (appState c) = Some live ->
  ∃ filtered : list NoteEntity,
    onmessage (FilterNotesReply noteIds) c = setFilteredNotes noteIds None c
    ∧ dispatched (setFilteredNotes noteIds hint c)
      = dispatched c ++ [FilterNotes filtered hint]
    ∧ posted (setFilteredNotes noteIds hint c) = posted c
    ∧ filtered = filter (λ n, id n ∈ noteIds) live
    ∧ sublist filtered live
    ∧ (∀ n, n ∈ filtered ↔ n ∈ live ∧ id n ∈ noteIds)
    ∧ (∀ i, i ∈ noteIds → i ∉ (id <$> live) → i ∉ (id <$> filtered)).
Proof.
  intros Hlive. exists (resolveNotes (Some live) noteIds).
  split_and!.
  - reflexivity.
  - unfold Search.setFilteredNotes. simpl. by rewrite Hlive.
  - reflexivity.
  - reflexivity.
  - apply resolveNotes_sublist.
  - intros n. apply resolveNotes_elem.
  - intros i Hi Hno Hin. apply resolveNotes_ids in Hin. tauto.
Qed.

(** C10. A filter reply that arrives while [appState.notes] is still
    [null] dispatches the empty list, whatever ids it carries: the
    coordinator takes its ordinary step, with one [filterNotes] action on
    [emptyList] and no hint, and posts nothing. *)
Theorem filter_reply_before_load (c : Coordinator)
    (noteIds : gset EntityId) :
  notes (appState c) = None ->
  dispatched (onmessage (FilterNotesReply noteIds) c)
    = dispatched c ++ [FilterNotes [] None]
  ∧ posted (onmessage (FilterNotesReply noteIds) c) = posted c
  ∧ hasInitialized (onmessage (FilterNotesReply noteIds) c)
    = hasInitialized c.
Proof.
  intros Hnone. simpl. unfold Search.setFilteredNotes. simpl.
  by rewrite Hnone.
Qed.

(** **** Bulk load *)

(** C3. Once a [notesLoaded] action has been processed in a session,
    whatever happened before and whatever happens after, every later
    [notesLoaded] action posts exactly one message, the bare
    [filterNotes] command, and so no [updateNote] command. *)
Theorem later_load_posts_only_filter (w : W) (s : AppState)
    (before after : list Event) (first later : list NoteEntity) :
  let c := run (init w s)
             (before ++ Dispatched (NotesLoaded first) :: after) in
  posted (middleware (NotesLoaded later) c)
  = posted c ++ [FilterNotesCmd None None None].
Proof.
  intros c.
  assert (Hinit : hasInitialized c = true).
  { subst c. rewrite run_app. simpl. apply run_keeps_initialized.
    apply notesLoaded_initializes. }
  unfold Search.middleware. simpl. by rewrite Hinit.
Qed.

(** **** Destructive actions and authentication *)


End Middleware.

(** The reply [{c, a, zz}] against the live notes [a, b, c]. *)
Lemma filter_reply_restricts_live_notes_witness :
  notes (appState Samples.loaded)
    = Some [Samples.noteA; Samples.noteB; Samples.noteC]
  ∧ ∃ filtered : list NoteEntity,
      dispatched
        (setFilteredNotes Samples.sampleReduce {[ "c"; "a"; "zz" ]} None
           Samples.loaded)
      = [FilterNotes filtered None]
      ∧ filtered = [Samples.noteA; Samples.noteC].
Proof.
  split; [reflexivity|].
  destruct (filter_reply_restricts_live_notes Samples.sampleReduce
              Samples.loaded [Samples.noteA; Samples.noteB; Samples.noteC]
              {[ "c"; "a"; "zz" ]} None eq_refl)
    as (filtered & _ & Hd & _ & Hf & _).
  exists filtered. split; [exact Hd|].
  rewrite Hf. vm_compute. reflexivity.
Defined.

Lemma filter_reply_before_load_witness :
  notes (appState Samples.notLoaded) = None
  ∧ dispatched
      (onmessage Samples.sampleReduce (FilterNotesReply {[ "a"; "b" ]})
         Samples.notLoaded)
    = [FilterNotes [] None].
Proof.
  split; [reflexivity|].
  apply (filter_reply_before_load Samples.sampleReduce Samples.notLoaded
           {[ "a"; "b" ]} eq_refl).
Defined.


End SearchFacts.

(** * Properties of the note list *)

Module NoteListFacts.
Import NoteList.

(** ** The composite list *)

Lemma length_zero_empty (s : string) :
  (String.length s =? 0)%nat = bool_decide (s = EmptyString).
Proof. destruct s; reflexivity. Qed.

Lemma length_pos_nonempty {A} (l : list A) :
  (0 <? length l)%nat = negb (bool_decide (l = [])).
Proof. destruct l; reflexivity. Qed.

Section Heights.

Variable measureText : string -> Z -> Q.
Variable getPreview : NoteEntity -> string.

Abbreviation computeRowHeight := (computeRowHeight measureText).
Abbreviation getRowHeight := (getRowHeight measureText getPreview).

(** C4. With an empty query or no tag suggestion the composite list is
    the filtered notes, one note row each and nothing else.  Otherwise
    it starts with the tag-suggestions row and the header row, followed
    by the note rows, or by the single placeholder row when there are no
    notes.  For no notes, query ["abc"] and three suggestions it is
    exactly tag suggestions, header, placeholder; the suggestion count is
    not stored in the row but is the [tagResultsFound] the row height is
    computed from. *)
Theorem composite_list_shape (notes : list NoteEntity)
    (searchQuery : string) (tagResultsFound : nat) (s : HeightState) :
  createCompositeNoteList notes searchQuery tagResultsFound
  = (if decide (searchQuery = EmptyString ∨ tagResultsFound = 0%nat)
     then NoteRow <$> notes
     else TagSuggestions :: NotesHeader ::
          (if decide (notes = []) then [NoNotes] else NoteRow <$> notes))
  ∧ createCompositeNoteList [] "abc" 3
    = [TagSuggestions; NotesHeader; NoNotes]
  ∧ getRowHeight (createCompositeNoteList [] "abc" 3) comfy 3 0 0 s
    = (Some (Num (HEADER_HEIGHT + TAG_ROW_HEIGHT * 3)), s).
Proof.
  split; [|split; reflexivity].
  unfold createCompositeNoteList.
  rewrite length_zero_empty, length_pos_nonempty.
  destruct tagResultsFound as [|k]; simpl.
  - rewrite orb_true_r. by rewrite decide_True by auto.
  - rewrite orb_false_r.
    destruct (decide (searchQuery = EmptyString)) as [->|Hq].
    + by rewrite decide_True by auto.
    + rewrite bool_decide_eq_false_2 by done.
      rewrite decide_False by (intros [?|?]; done).
      by destruct notes.
Qed.

(** ** Row heights *)

Lemma computeRowHeight_measures_once (width : Z)
    (noteDisplay : ListDisplayMode) (preview : string) (s : HeightState) :
  previewCache (computeRowHeight width noteDisplay preview s).2
  = previewCache s
  ∧ (measurements (computeRowHeight width noteDisplay preview s).2
     ≤ S (measurements s))%nat.
Proof.
  unfold NoteList.computeRowHeight.
  destruct (decide (condensed = noteDisplay)); simpl; split; auto with lia.
Qed.

(** **** The line estimate for a negative divisor *)

Lemma div_neg_divisor (a : Q) (d : Z) :
  d < 0 -> (a / inject_Z d == - (a / inject_Z (- d)))%Q.
Proof.
  intros Hd. rewrite inject_Z_opp. field.
  intros H0. unfold Qeq in H0. simpl in H0. lia.
Qed.

Lemma ceilDiv_neg_divisor (a : Q) (d : Z) :
  d < 0 -> ceilDiv a d = Num (- Qfloor (a / inject_Z (- d))).
Proof.
  intros Hd. unfold ceilDiv.
  destruct (Z.eqb_spec d 0) as [?|_]; [lia|].
  f_equal. rewrite (Qceiling_comp _ _ (div_neg_divisor a d Hd)).
  unfold Qceiling. by rewrite Qopp_involutive.
Qed.

Lemma inject_Z_pos (e : Z) : 0 < e -> (0 < inject_Z e)%Q.
Proof. intros He. change 0%Q with (inject_Z 0). by rewrite <- Zlt_Qlt. Qed.

Lemma floor_div_nonneg (a : Q) (e : Z) :
  0 < e -> (0 <= a)%Q -> 0 <= Qfloor (a / inject_Z e).
Proof.
  intros He Ha. change 0 with (Qfloor (inject_Z 0)).
  apply Qfloor_resp_le. apply Qle_shift_div_l; [by apply inject_Z_pos|].
  by rewrite Qmult_0_l.
Qed.

Lemma floor_div_le (a : Q) (e k : Z) :
  0 < e -> (a <= inject_Z (k * e))%Q -> Qfloor (a / inject_Z e) <= k.
Proof.
  intros He Ha. rewrite <- (Qfloor_Z k).
  apply Qfloor_resp_le. apply Qle_shift_div_r; [by apply inject_Z_pos|].
  by rewrite <- inject_Z_mult.
Qed.

Lemma floor_div_ge (a : Q) (e k : Z) :
  0 < e -> (inject_Z (k * e) <= a)%Q -> k <= Qfloor (a / inject_Z e).
Proof.
  intros He Ha. rewrite <- (Qfloor_Z k) at 1.
  apply Qfloor_resp_le. apply Qle_shift_div_l; [by apply inject_Z_pos|].
  by rewrite <- inject_Z_mult.
Qed.

(** C2, as the code has it.  For a width of at most [0] the divisor
    [width - 24] is negative, never zero, so the height is an integer:
    the base height in condensed mode, and otherwise the base height
    plus 21 times the line estimate [ceil(textWidth / (width - 24))].
    For a measured text width that is not negative the estimate is at
    most [0], so the height is at most the base height; it is not
    negative when the text is at most [2 * (24 - width)] wide, and it is
    negative when the text is at least [3 * (24 - width)] wide. *)
Theorem height_for_nonpositive_width (width : Z)
    (noteDisplay : ListDisplayMode) (preview : string) (s : HeightState) :
  width <= 0 ->
  (0 <= measureText preview (width - 24))%Q ->
  let textWidth := measureText preview (width - 24) in
  ∃ h : Z,
    (computeRowHeight width noteDisplay preview s).1 = Num h
    ∧ h <= ROW_HEIGHT_BASE
    ∧ (noteDisplay = condensed → h = ROW_HEIGHT_BASE)
    ∧ (noteDisplay ≠ condensed →
         h = ROW_HEIGHT_BASE
             + ROW_HEIGHT_LINE * Qceiling (textWidth / inject_Z (width - 24)))
    ∧ ((textWidth <= inject_Z (2 * (24 - width)))%Q → 0 <= h)
    ∧ (noteDisplay ≠ condensed →
         (inject_Z (3 * (24 - width)) <= textWidth)%Q → h < 0).
Proof.
  intros Hw Hpos textWidth.
  unfold NoteList.computeRowHeight.
  destruct (decide (condensed = noteDisplay)) as [<-|Hmode].
  { exists ROW_HEIGHT_BASE. simpl. unfold ROW_HEIGHT_BASE.
    split_and!; try done; lia. }
  unfold mbind, M_bind, bind, getTextWidth, ret. simpl.
  fold textWidth.
  assert (Hd : width - 24 < 0) by lia.
  pose proof (ceilDiv_neg_divisor textWidth (width - 24) Hd) as Hceil.
  assert (Hq : Qceiling (textWidth / inject_Z (width - 24))
               = - Qfloor (textWidth / inject_Z (- (width - 24)))).
  { unfold ceilDiv in Hceil.
    destruct (Z.eqb_spec (width - 24) 0) as [?|_]; [lia|]. congruence. }
  rewrite Hceil, Hq.
  set (e := - (width - 24)) in *.
  assert (He : 0 < e) by (subst e; lia).
  pose proof (floor_div_nonneg textWidth e He Hpos) as Hfloor.
  set (fl := Qfloor (textWidth / inject_Z e)) in *.
  assert (Hmax : 1 <= maxPreviewLines noteDisplay)
    by (destruct noteDisplay; simpl; done || lia).
  exists (ROW_HEIGHT_BASE + ROW_HEIGHT_LINE * - fl). simpl.
  rewrite Z.min_r by lia.
  unfold ROW_HEIGHT_BASE, ROW_HEIGHT_LINE.
  split_and!; try done; try lia.
  - intros Hle.
    assert (fl <= 2); [|lia].
    apply floor_div_le; [done|].
    by replace (2 * e) with (2 * (24 - width)) by (subst e; lia).
  - intros _ Hge.
    assert (3 <= fl); [|lia].
    apply floor_div_ge; [done|].
    by replace (3 * e) with (3 * (24 - width)) by (subst e; lia).
Qed.

(** C8. Two calls in a row of the row-height function with the same
    list, display mode, suggestion count, width and index: the second
    call returns what the first returned, measures no text (so the two
    calls together measure at most once) and leaves the cache as the
    first call left it. *)
Theorem heightFor_twice (notes : list Row) (noteDisplay : ListDisplayMode)
    (tagResultsFound : nat) (width : Z) (index : nat) (s : HeightState) :
  let call := getRowHeight notes noteDisplay tagResultsFound width index in
  let first := call s in
  let second := call first.2 in
  second.1 = first.1
  ∧ second.2 = first.2
  ∧ measurements second.2 = measurements first.2
  ∧ (measurements second.2 ≤ S (measurements s))%nat.
Proof.
  intros call first second.
  assert (Hsame : second = (first.1, first.2)
                  ∧ (measurements first.2 ≤ S (measurements s))%nat).
  { subst second first call.
    unfold NoteList.getRowHeight, rowHeightCache.
    destruct (notes !! index) as [[note| | |]|]; simpl; auto.
    unfold mbind, M_bind, bind, cacheGet, cacheSet, ret. simpl.
    pose proof (computeRowHeight_measures_once width noteDisplay
                  (getPreview note) s) as [Hc Hm].
    destruct (previewCache s !! id note)
      as [[[[cWidth cMode] cPreview] cHeight]|] eqn:Hget; simpl.
    - destruct (bool_decide (cWidth = width)
                && bool_decide (cMode = noteDisplay)
                && bool_decide (cPreview = getPreview note)) eqn:Hhit;
        simpl.
      + rewrite Hget. simpl. rewrite Hhit. auto.
      + destruct (computeRowHeight width noteDisplay (getPreview note) s)
          as [h s'] eqn:Hf; simpl in *.
        rewrite lookup_insert_eq. simpl.
        rewrite !bool_decide_eq_true_2 by done. simpl. auto.
    - destruct (computeRowHeight width noteDisplay (getPreview note) s)
        as [h s'] eqn:Hf; simpl in *.
      rewrite lookup_insert_eq. simpl.
      rewrite !bool_decide_eq_true_2 by done. simpl. auto. }
  destruct Hsame as [-> Hm]. simpl. auto.
Qed.

End Heights.

(** Four characters of eight pixels in a list of width [0]: one line is
    taken off the base height. *)
Lemma height_for_nonpositive_width_witness :
  0 <= 0
  ∧ (0 <= Samples.monospace "aaaa" (0 - 24))%Q
  ∧ ∃ h : Z,
      (computeRowHeight Samples.monospace 0 expanded "aaaa"
         Samples.emptyCache).1 = Num h
      ∧ h = 21.
Proof.
  split; [lia|]. split; [vm_compute; discriminate|].
  destruct (height_for_nonpositive_width Samples.monospace 0 expanded "aaaa"
              Samples.emptyCache)
    as (h & Hh & _ & _ & Hformula & _); [lia | vm_compute; discriminate |].
  exists h. split; [exact Hh|].
  rewrite Hformula by discriminate. vm_compute. reflexivity.
Defined.

(** C2, as stated, fails: nine characters of eight pixels in a list of
    width [0] give the line estimate [ceil(72 / -24) = -3] and a height of
    [42 - 63] pixels. *)
Lemma height_negative_at_width_zero :
  (computeRowHeight Samples.monospace 0 comfy "aaaaaaaaa"
     Samples.emptyCache).1 = Num (-21)
  ∧ ¬ (∀ (measureText : string → Z → Q) (width : Z)
         (noteDisplay : ListDisplayMode) (preview : string)
         (s : HeightState),
         (∀ text w, (0 <= measureText text w)%Q) →
         width <= 0 →
         ∃ h : Z,
           (computeRowHeight measureText width noteDisplay preview s).1
             = Num h
           ∧ 0 <= h).
Proof.
  split; [vm_compute; reflexivity|].
  intros H.
  destruct (H Samples.monospace 0 comfy "aaaaaaaaa" Samples.emptyCache)
    as (h & Hh & Hpos).
  - intros text w. unfold Samples.monospace.
    change 0%Q with (inject_Z 0). rewrite <- Zle_Qle. lia.
  - lia.
  - vm_compute in Hh. injection Hh as <-. lia.
Qed.

(** ** Looking up and searching the list *)

Lemma at_lookup {A} (l : list A) (k : nat) : at_ l (Z.of_nat k) = l !! k.
Proof.
  unfold at_. destruct (Z.ltb_spec (Z.of_nat k) 0); [lia|].
  by rewrite Nat2Z.id.
Qed.

Lemma at_Some {A} (l : list A) (i : Z) (x : A) :
  at_ l i = Some x ↔ 0 <= i ∧ l !! Z.to_nat i = Some x.
Proof.
  unfold at_. destruct (Z.ltb_spec i 0); split; try done; try lia; tauto.
Qed.

Lemma at_outside {A} (l : list A) (i : Z) :
  i < 0 ∨ Z.of_nat (length l) <= i -> at_ l i = None.
Proof.
  intros H. unfold at_. destruct (Z.ltb_spec i 0); [done|].
  apply lookup_ge_None. lia.
Qed.

Lemma findIndexFrom_none {A} (p : A -> bool) (l : list A) (start : Z) :
  0 <= start -> findIndexFrom p l start = -1 -> Forall (λ x, p x = false) l.
Proof.
  revert start. induction l as [|x l IH]; intros start Hs H; simpl in *.
  - constructor.
  - destruct (p x) eqn:Hp; [lia|].
    constructor; [done|]. apply (IH (start + 1)); [lia|done].
Qed.

Lemma findIndexFrom_range {A} (p : A -> bool) (l : list A) (start : Z) :
  0 <= start ->
  findIndexFrom p l start = -1
  ∨ start <= findIndexFrom p l start < start + Z.of_nat (length l).
Proof.
  revert start. induction l as [|x l IH]; intros start Hs; simpl.
  - by left.
  - destruct (p x); [right; lia|].
    destruct (IH (start + 1)) as [->|?]; [lia|by left|right; lia].
Qed.

Lemma findIndexFrom_found {A} (p : A -> bool) (l : list A) (start : Z) :
  0 <= start -> findIndexFrom p l start ≠ -1 ->
  ∃ (k : nat) (x : A),
    findIndexFrom p l start = start + Z.of_nat k
    ∧ l !! k = Some x ∧ p x = true
    ∧ ∀ (j : nat) (y : A), (j < k)%nat → l !! j = Some y → p y = false.
Proof.
  revert start. induction l as [|x l IH]; intros start Hs H; simpl in *.
  - done.
  - destruct (p x) eqn:Hp.
    + exists 0%nat, x. split_and!; [lia|done|done|]. intros j y Hj. lia.
    + destruct (IH (start + 1)) as (k & y & Hk & Hl & Hy & Hbefore);
        [lia|done|].
      exists (S k), y. split_and!; [lia|done|done|].
      intros [|j] z Hj Hz; simpl in Hz.
      * by injection Hz as <-.
      * apply (Hbefore j); [lia|done].
Qed.

Lemma findIndex_exists {A} (p : A -> bool) (l : list A) (x : A) :
  x ∈ l -> p x = true -> findIndex p l ≠ -1.
Proof.
  intros Hx Hp Hnone. unfold findIndex in Hnone.
  apply findIndexFrom_none in Hnone; [|lia].
  rewrite Forall_forall in Hnone. specialize (Hnone x Hx). congruence.
Qed.

(** ** The highlighted index *)

Lemma isSelected_id (s item : NoteEntity) :
  isSelected (Some s) item = true ↔ id item = id s.
Proof.
  unfold isSelected, idOf. simpl. rewrite bool_decide_eq_true.
  split; [by intros [= ->]|by intros ->].
Qed.

(** C5. A list that is not empty and a selected note [s] that is not the
    entry at the recorded index.  If some entry has the id of [s], the
    highlighted index is the first position of such an entry.  If none
    has, it is the smaller of the recorded index (counting as [0] when
    none is recorded, as [Math.min] does with [null]) and the last
    position. *)
Theorem selection_moved_or_gone (props : Props) (state : Selected)
    (s : NoteEntity) :
  notes props ≠ [] ->
  selectedNote props = Some s ->
  idOf (atIndex (notes props) (index state)) ≠ Some (id s) ->
  (id s ∈ (id <$> notes props) →
     ∃ (k : nat) (n : NoteEntity),
       getHighlightedIndex props state = Some (Z.of_nat k)
       ∧ notes props !! k = Some n ∧ id n = id s
       ∧ ∀ (j : nat) (m : NoteEntity),
           (j < k)%nat → notes props !! j = Some m → id m ≠ id s)
  ∧ (id s ∉ (id <$> notes props) →
     getHighlightedIndex props state
     = Some (Z.min (toNumber (index state))
                   (Z.of_nat (length (notes props)) - 1))).
Proof.
  intros Hne Hsel Hnot.
  unfold getHighlightedIndex. rewrite Hsel.
  destruct (notes props) as [|n0 ns] eqn:Hnotes; [done|].
  change (length (n0 :: ns) =? 0)%nat with false. cbn iota.
  rewrite bool_decide_eq_false_2 by done. cbn [andb].
  assert (Hat : selectedIsAt (Some s) (n0 :: ns) (index state) = false).
  { unfold selectedIsAt. apply andb_false_intro2.
    apply bool_decide_eq_false_2. unfold idOf at 1. simpl. congruence. }
  rewrite Hat.
  rewrite bool_decide_eq_true_2 by eauto. cbn [andb].
  split.
  - intros Hin. apply list_elem_of_fmap in Hin as (n & Hid & Hn).
    assert (Hfound : findIndex (isSelected (Some s)) (n0 :: ns) ≠ -1).
    { apply (findIndex_exists _ _ n Hn). by apply isSelected_id. }
    destruct (findIndexFrom_found (isSelected (Some s)) (n0 :: ns) 0)
      as (k & x & Hk & Hl & Hx & Hbefore); [lia|done|].
    unfold findIndex. rewrite Hk.
    destruct (Z.ltb_spec (-1) (0 + Z.of_nat k)); [|lia].
    exists k, x. split_and!; [f_equal; lia|done|by apply isSelected_id|].
    intros j m Hj Hm Hidm. apply isSelected_id in Hidm.
    specialize (Hbefore j m Hj Hm). congruence.
  - intros Hnotin.
    assert (Hnone : findIndex (isSelected (Some s)) (n0 :: ns) = -1).
    { destruct (decide (findIndex (isSelected (Some s)) (n0 :: ns) = -1))
        as [|Hfound]; [done|].
      destruct (findIndexFrom_found (isSelected (Some s)) (n0 :: ns) 0)
        as (k & x & _ & Hl & Hx & _); [lia|done|].
      exfalso. apply Hnotin. apply list_elem_of_fmap. exists x.
      apply isSelected_id in Hx. split; [done|].
      by apply list_elem_of_lookup_2 in Hl. }
    by rewrite Hnone.
Qed.

(** The list [A, C] after [B], selected at index [1], was removed: the
    index stays [1] and now points at [C]. *)
Lemma selection_moved_or_gone_witness :
  let props := mkProps [Samples.noteA; Samples.noteC] (Some Samples.noteB)
                 None false in
  let state := mkSelected (Some "b") (Some 1) in
  notes props ≠ []
  ∧ selectedNote props = Some Samples.noteB
  ∧ idOf (atIndex (notes props) (index state)) ≠ Some (id Samples.noteB)
  ∧ getHighlightedIndex props state = Some 1
  ∧ at_ (notes props) 1 = Some Samples.noteC.
Proof.
  intros props state.
  assert (H1 : notes props ≠ []) by discriminate.
  assert (H2 : selectedNote props = Some Samples.noteB) by reflexivity.
  assert (H3 : idOf (atIndex (notes props) (index state))
               ≠ Some (id Samples.noteB)) by discriminate.
  split; [exact H1|]. split; [exact H2|]. split; [exact H3|].
  split; [|reflexivity].
  destruct (selection_moved_or_gone props state Samples.noteB H1 H2 H3)
    as [_ Hgone].
  rewrite Hgone; [reflexivity|].
  apply (bool_decide_unpack _). vm_compute. exact I.
Defined.

(** The list [X, A, B, C] with [B] selected at the former index [1]: the
    note is found at index [2]. *)
Example selection_follows_moved_note :
  getHighlightedIndex
    (mkProps [Samples.noteX; Samples.noteA; Samples.noteB; Samples.noteC]
       (Some Samples.noteB) None false)
    (mkSelected (Some "b") (Some 1))
  = Some 2.
Proof. reflexivity. Qed.

Lemma selectedIsAt_index (selectedNote : option NoteEntity)
    (notes : list NoteEntity) (i : option Z) :
  selectedIsAt selectedNote notes i = true -> is_Some i.
Proof.
  unfold selectedIsAt. intros [Hs Hid]%andb_true_iff.
  apply bool_decide_eq_true in Hs as [s ->].
  apply bool_decide_eq_true in Hid.
  destruct i; [eauto|]. discriminate.
Qed.

Lemma truthyIndex_Some (i : option Z) : truthyIndex i = true -> is_Some i.
Proof. destruct i; [eauto|discriminate]. Qed.

(** When no index is resolved, no entry of the list has a usable id. *)
Lemma no_highlight_no_valid_id (props : Props) (state : Selected) (t : Z) :
  getHighlightedIndex props state = None ->
  validIdAt (notes props) t = None.
Proof.
  unfold getHighlightedIndex, validIdAt.
  destruct (notes props) as [|n0 ns] eqn:Hnotes.
  { intros _. unfold at_. by destruct (t <? 0); [|rewrite lookup_nil]. }
  change (length (n0 :: ns) =? 0)%nat with false. cbn iota.
  destruct (bool_decide (selectedNote props = None)
            && negb (truthyIndex (index state))) eqn:Hfirst.
  - destruct (Z.ltb_spec (-1)
                (findIndex (λ item, truthyId (id item)) (n0 :: ns)))
      as [|Hle]; [discriminate|].
    intros _.
    destruct (findIndexFrom_range (λ item, truthyId (id item)) (n0 :: ns) 0)
      as [Hnone|Hrange]; [lia| |unfold findIndex in Hle; lia].
    apply findIndexFrom_none in Hnone; [|lia].
    rewrite Forall_forall in Hnone.
    destruct (at_ (n0 :: ns) t) as [n|] eqn:Hat; [|done].
    apply at_Some in Hat as [_ Hat]. apply list_elem_of_lookup_2 in Hat.
    by rewrite (Hnone n Hat).
  - destruct (selectedIsAt (selectedNote props) (n0 :: ns) (index state))
      eqn:Hat.
    { apply selectedIsAt_index in Hat as [z ->]. discriminate. }
    destruct (bool_decide (is_Some (selectedNote props))) eqn:Hsel.
    { cbn [andb]. by destruct (-1 <? _). }
    cbn [andb]. intros Hidx.
    apply bool_decide_eq_false in Hsel.
    assert (selectedNote props = None) as Hnone
      by (destruct (selectedNote props); [exfalso; eauto|done]).
    rewrite Hnone, Hidx in Hfirst. discriminate.
Qed.

(** ** Props updates *)

(** C9. When [UNSAFE_componentWillReceiveProps] does not return at once
    and the highlighted index resolves to [nextIndex], holding the note
    [target], the state becomes that note's id and index, and
    [this.props.onSelectNote] is called, once and with the id of [target],
    exactly when no note is selected or the selected note has another id.
    When the selected note already has that id, whatever the index, it is
    not called. *)
Theorem select_request_iff_id_differs (thisProps nextProps : Props)
    (state : Selected) (nextIndex : Z) (target : NoteEntity) :
  selectionInPlace thisProps nextProps state = false ->
  getHighlightedIndex nextProps state = Some nextIndex ->
  at_ (notes nextProps) nextIndex = Some target ->
  componentWillReceiveProps thisProps nextProps state
  = SetState {| noteId := Some (id target); index := Some nextIndex |}
      (if decide (idOf (selectedNote nextProps) = Some (id target))
       then [] else [id target]).
Proof.
  intros Hrun Hidx Hat. unfold componentWillReceiveProps.
  rewrite Hrun, Hidx, Hat. f_equal.
  destruct (selectedNote nextProps) as [s|]; unfold idOf; cbn [fmap option_fmap option_map].
  - case_bool_decide; case_decide; congruence.
  - case_decide; congruence.
Qed.

(** [B] stays selected while it moves from index [1] to index [2]: the
    state follows and nothing is requested. *)
Lemma select_request_iff_id_differs_witness :
  let props := mkProps
                 [Samples.noteX; Samples.noteA; Samples.noteB; Samples.noteC]
                 (Some Samples.noteB) None false in
  let state := mkSelected (Some "b") (Some 1) in
  selectionInPlace props props state = false
  ∧ getHighlightedIndex props state = Some 2
  ∧ at_ (notes props) 2 = Some Samples.noteB
  ∧ componentWillReceiveProps props props state
    = SetState (mkSelected (Some "b") (Some 2)) [].
Proof.
  intros props state. do 3 (split; [reflexivity|]).
  rewrite (select_request_iff_id_differs props props state 2 Samples.noteB
             eq_refl eq_refl eq_refl).
  reflexivity.
Defined.

(** The connected [onSelectNote] forwards every usable id to the store. *)
Lemma onSelectNote_forwards (i : EntityId) :
  truthyId i = true -> onSelectNote (Some i) = [i].
Proof. intros H. unfold onSelectNote. by rewrite H. Qed.

(** With nothing to highlight the state is cleared and nothing is
    requested. *)
Lemma no_anchor_clears_selection (thisProps nextProps : Props)
    (state : Selected) :
  selectionInPlace thisProps nextProps state = false ->
  getHighlightedIndex nextProps state = None ->
  componentWillReceiveProps thisProps nextProps state
  = SetState initialSelected [].
Proof.
  intros Hrun Hidx. unfold componentWillReceiveProps. by rewrite Hrun, Hidx.
Qed.

(** A recorded index past the end of the list, with no note selected, is
    returned as it is, and reading the id of the entry there fails. *)
Example stale_index_without_selection :
  componentWillReceiveProps
    (mkProps [] None None false)
    (mkProps [Samples.noteA; Samples.noteB] None None false)
    (mkSelected (Some "c") (Some 5))
  = TypeError.
Proof. reflexivity. Qed.

(** ** Keyboard shortcuts *)

Section Shortcuts.

Variable toLowerCase : string -> string.

Abbreviation isPreviousChord := (isPreviousChord toLowerCase).
Abbreviation isNextChord := (isNextChord toLowerCase).
Abbreviation handleShortcut := (handleShortcut toLowerCase).

Lemma validIdAt_outside (notes : list NoteEntity) (i : Z) :
  i < 0 ∨ Z.of_nat (length notes) <= i -> validIdAt notes i = None.
Proof. intros H. unfold validIdAt. by rewrite at_outside. Qed.

(** What the handler does with a move to the previous or to the next
    note, in terms of the two values it reads.  The neighbour slot is the
    recorded index of the state (counting as [0] when none is recorded)
    minus or plus one.  When [getHighlightedIndex] gives [null] (or the
    [-1] the code tests for), or the neighbour slot has no entry with a
    usable id, the handler returns [true] and calls nothing.  Otherwise
    it calls [this.props.onSelectNote] with the id in the neighbour slot,
    stops propagation, prevents the default action and returns [false]. *)
Theorem sequential_move (props : Props) (state : Selected)
    (event : KeyEvent) :
  isPreviousChord event || isNextChord event = true ->
  let highlightedIndex := getHighlightedIndex props state in
  let neighbourSlot :=
    if isPreviousChord event then toNumber (index state) - 1
    else toNumber (index state) + 1 in
  let noHighlight :=
    highlightedIndex = None ∨ highlightedIndex = Some (-1) in
  (noHighlight ∨ validIdAt (notes props) neighbourSlot = None →
     handleShortcut props state event = passThrough)
  ∧ (∀ neighbour : EntityId,
       ¬ noHighlight →
       validIdAt (notes props) neighbourSlot = Some neighbour →
       handleShortcut props state event = selectAndStop neighbour).
Proof.
  intros Hchord highlightedIndex neighbourSlot noHighlight.
  assert (Hnone : highlightedIndex = None →
                  validIdAt (notes props) neighbourSlot = None)
    by (intros H; by apply (no_highlight_no_valid_id props state)).
  unfold NoteList.handleShortcut. fold highlightedIndex.
  destruct (isPreviousChord event) eqn:Hprev.
  - case_bool_decide as Hminus.
    { split; [done|]. intros nb Hhl. exfalso. apply Hhl. by right. }
    destruct (Z.ltb_spec (toNumber (index state)) 0) as [Hneg|_].
    { split; [done|]. intros nb _ Hvalid.
      rewrite validIdAt_outside in Hvalid by (subst neighbourSlot; lia).
      discriminate. }
    fold neighbourSlot.
    destruct (validIdAt (notes props) neighbourSlot) as [nb|] eqn:Hvalid.
    + split; [|by intros ? _ [= <-]].
      intros [[Hn|Hm]|Hv]; [by specialize (Hnone Hn)|done|done].
    + split; [done|]. intros nb _ [=].
  - simpl in Hchord. rewrite Hchord.
    case_bool_decide as Hminus.
    { split; [done|]. intros nb Hhl. exfalso. apply Hhl. by right. }
    destruct (Z.leb_spec (Z.of_nat (length (notes props)))
                (toNumber (index state))) as [Hpast|_].
    { split; [done|]. intros nb _ Hvalid.
      rewrite validIdAt_outside in Hvalid by (subst neighbourSlot; lia).
      discriminate. }
    fold neighbourSlot.
    destruct (validIdAt (notes props) neighbourSlot) as [nb|] eqn:Hvalid.
    + split; [|by intros ? _ [= <-]].
      intros [[Hn|Hm]|Hv]; [by specialize (Hnone Hn)|done|done].
    + split; [done|]. intros nb _ [=].
Qed.

(** Any other key event is passed through. *)
Lemma other_keys_pass_through (props : Props) (state : Selected)
    (event : KeyEvent) :
  isPreviousChord event = false -> isNextChord event = false ->
  handleShortcut props state event = passThrough.
Proof. intros Hp Hn. unfold NoteList.handleShortcut. by rewrite Hp, Hn. Qed.

End Shortcuts.

(** Control, Shift and [J] with [A] highlighted at index [0] of
    [A, B, C]: [B] is requested and the event is consumed. *)
Lemma sequential_move_witness :
  let props := mkProps [Samples.noteA; Samples.noteB; Samples.noteC]
                 (Some Samples.noteA) None false in
  let state := mkSelected (Some "a") (Some 0) in
  let event := mkKeyEvent true false true "J" in
  isPreviousChord Samples.asciiLower event
    || isNextChord Samples.asciiLower event = true
  ∧ handleShortcut Samples.asciiLower props state event
    = {| returned := false; selectRequest := Some "b";
         stopPropagation := true; preventDefault := true |}.
Proof.
  intros props state event. split; [reflexivity|].
  destruct (sequential_move Samples.asciiLower props state event eq_refl)
    as [_ Hmove].
  apply (Hmove "b"); [|reflexivity].
  intros [H|H]; discriminate H.
Defined.

(** The test [-1 === highlightedIndex] never holds: unless the state
    itself records [-1], the resolved index is [null] or another
    number. *)
Lemma minus_one_never_resolved (props : Props) (state : Selected) :
  index state ≠ Some (-1) ->
  getHighlightedIndex props state ≠ Some (-1).
Proof.
  intros Hidx. unfold getHighlightedIndex.
  destruct (length (notes props) =? 0)%nat eqn:Hlen; [done|].
  apply Nat.eqb_neq in Hlen.
  destruct (bool_decide (selectedNote props = None)
            && negb (truthyIndex (index state))).
  { destruct (Z.ltb_spec (-1)
                (findIndex (λ item, truthyId (id item)) (notes props)));
      [|done].
    intros [= Heq]. lia. }
  destruct (selectedIsAt _ _ _); [done|].
  destruct (bool_decide (is_Some (selectedNote props))); cbn [andb]; [|done].
  destruct (Z.ltb_spec (-1) (findIndex (isSelected (selectedNote props))
                               (notes props))).
  - intros [= Heq]. lia.
  - intros [= Heq]. destruct (index state) as [z|]; simpl in Heq.
    + assert (z = -1) by lia. congruence.
    + lia.
Qed.

(** C6, where the code departs from it.  The component starts with no
    recorded selection, and [UNSAFE_componentWillReceiveProps] does not
    run on mount.  In that state [render] marks no row, whatever the
    list.  With the list [x, b, a, c] and [a] selected,
    [getHighlightedIndex] resolves to index [2], so the test for [-1] does
    not fire; the handler then takes the neighbour of the absent recorded
    index, counted as [0]: the move to the next note is consumed and
    requests [b], at index [1], and the move to the previous note is
    passed through.  With the list [a, b] and nothing selected the move
    to the next note requests [b] as well. *)
Theorem move_from_initial_state :
  let props := mkProps
                 [Samples.noteX; Samples.noteB; Samples.noteA; Samples.noteC]
                 (Some Samples.noteA) None false in
  let next := mkKeyEvent true false true "ArrowDown" in
  let previous := mkKeyEvent true false true "ArrowUp" in
  (∀ special j isSmallScreen,
     isRowSelected isSmallScreen
       (adjustedHighlight initialSelected special) j = false)
  ∧ getHighlightedIndex props initialSelected = Some 2
  ∧ validIdAt (notes props) 3 = Some "c"
  ∧ handleShortcut Samples.asciiLower props initialSelected next
    = selectAndStop "b"
  ∧ handleShortcut Samples.asciiLower props initialSelected previous
    = passThrough
  ∧ handleShortcut Samples.asciiLower
      (mkProps [Samples.noteA; Samples.noteB] None None false)
      initialSelected next
    = selectAndStop "b".
Proof.
  intros props next previous. split_and!; try reflexivity.
  intros special j isSmallScreen. unfold isRowSelected, adjustedHighlight.
  simpl. apply andb_false_r.
Qed.

End NoteListFacts.

(** * Whole sessions of the search middleware *)

Module SearchSessions.
Import Search.

Section Sessions.

Context {W : Type}.
Variable updateFilter : W -> string -> gset EntityId.
Variable reduce : AppState -> Action -> AppState.

Abbreviation Coordinator := (@Coordinator W).
Abbreviation Event := (@Event W).
Abbreviation middleware := (middleware updateFilter reduce).
Abbreviation onmessage := (onmessage reduce).
Abbreviation step := (step updateFilter reduce).
Abbreviation run := (run updateFilter reduce).

(** The [updateNote] message for a note. *)
Abbreviation upsertOf := (λ n : NoteEntity, UpdateNote (id n) (data n)).

(** **** One event *)

Lemma step_initialized (c : Coordinator) (e : Event) :
  hasInitialized (step c e) = hasInitialized c || isNotesLoaded e.
Proof.
  destruct e as [a|r|w]; simpl.
  - destruct a; simpl; rewrite ?orb_false_r; try reflexivity.
    destruct (hasInitialized c) eqn:E; simpl; [exact E|reflexivity].
  - destruct r; simpl; by rewrite orb_false_r.
  - by rewrite orb_false_r.
Qed.

Lemma upserts_app (l1 l2 : list WorkerMsg) :
  List.filter isUpdateNote (l1 ++ l2)
  = List.filter isUpdateNote l1 ++ List.filter isUpdateNote l2.
Proof. apply List.filter_app. Qed.

Lemma upserts_corpus (ns : list NoteEntity) :
  List.filter isUpdateNote (upsertOf <$> ns) = upsertOf <$> ns.
Proof.
  induction ns as [|n ns IH]; [done|].
  rewrite fmap_cons. cbn [List.filter isUpdateNote]. by rewrite IH.
Qed.

(** The [updateNote] messages an event adds to the log. *)
Lemma step_upserts (c : Coordinator) (e : Event) :
  List.filter isUpdateNote (posted (step c e))
  = List.filter isUpdateNote (posted c)
    ++ match e with
       | Dispatched (NotesLoaded ns) =>
           if hasInitialized c then [] else upsertOf <$> ns
       | Dispatched (RemoteNoteUpdate i d) => [UpdateNote i d]
       | _ => []
       end.
Proof.
  destruct e as [a|r|w]; simpl.
  - destruct a; simpl; rewrite ?upserts_app, ?app_nil_r; try reflexivity.
    destruct (hasInitialized c); simpl; rewrite ?app_nil_r; [reflexivity|].
    rewrite SearchFacts.posted_postAll.
    rewrite !upserts_app, upserts_corpus. simpl. by rewrite ?app_nil_r.
  - destruct r; simpl; by rewrite app_nil_r.
  - by rewrite app_nil_r.
Qed.

Lemma step_dispatched (c : Coordinator) (e : Event) :
  ∃ l : list Action,
    dispatched (step c e) = dispatched c ++ l
    ∧ Forall (λ a, isFilterNotes a = true) l
    ∧ length l = (if callsSetFilteredNotes e then 1 else 0)%nat.
Proof.
  assert (Hnone : ∀ d : list Action, d = dispatched c →
            ∃ l, d = dispatched c ++ l
                 ∧ Forall (λ a, isFilterNotes a = true) l
                 ∧ length l = 0%nat).
  { intros d ->. exists []. rewrite app_nil_r. by split_and!. }
  assert (Hone : ∀ (d : list Action) l h,
            d = dispatched c ++ [FilterNotes l h] →
            ∃ l, d = dispatched c ++ l
                 ∧ Forall (λ a, isFilterNotes a = true) l
                 ∧ length l = 1%nat).
  { intros d l h ->. eexists [_]. split_and!; [done| |done].
    by repeat constructor. }
  destruct e as [a|r|w]; [destruct a|destruct r|]; simpl;
    first [by apply Hnone | by eapply Hone | idtac].
  apply Hnone. destruct (hasInitialized c); simpl; [done|].
  by rewrite SearchFacts.dispatched_postAll.
Qed.

(** **** Sessions *)

Lemma run_snoc (c : Coordinator) (es : list Event) (e : Event) :
  run c (es ++ [e]) = step (run c es) e.
Proof. unfold Search.run. by rewrite foldl_app. Qed.

Lemma run_cons (c : Coordinator) (e : Event) (es : list Event) :
  run c (e :: es) = run (step c e) es.
Proof. reflexivity. Qed.

(** X1. The one-shot flag records exactly whether the notes were loaded:
    after any sequence of events, starting from a coordinator that is not
    initialised, [hasInitialized] holds exactly when an [App.notesLoaded]
    action was among them. *)
Theorem initialized_iff_loaded (w : W) (s : AppState) (es : list Event) :
  hasInitialized (run (init w s) es) = existsb isNotesLoaded es.
Proof.
  induction es as [|e es IH] using rev_ind; [reflexivity|].
  rewrite run_snoc, step_initialized, IH, existsb_app. simpl.
  by rewrite orb_false_r.
Qed.

(** X2. The middleware dispatches nothing but [filterNotes] actions, one
    for each filter reply received and for each delete, restore, trash or
    authentication action, and none for any other event. *)
Theorem dispatches_only_filterNotes (c : Coordinator) (es : list Event) :
  ∃ l : list Action,
    dispatched (run c es) = dispatched c ++ l
    ∧ Forall (λ a, isFilterNotes a = true) l
    ∧ length l = length (List.filter callsSetFilteredNotes es).
Proof.
  induction es as [|e es IH] using rev_ind.
  - exists []. rewrite app_nil_r. by split_and!.
  - destruct IH as (l & Hl & Hall & Hlen).
    destruct (step_dispatched (run c es) e) as (l' & Hl' & Hall' & Hlen').
    exists (l ++ l'). rewrite run_snoc, Hl', Hl, <- app_assoc.
    split_and!; [done|by apply Forall_app|].
    rewrite List.filter_app, !length_app, Hlen, Hlen'. simpl.
    by destruct (callsSetFilteredNotes e).
Qed.

Lemma run_upserts_initialized (c : Coordinator) (es : list Event) :
  hasInitialized c = true ->
  Forall (λ e, isRemoteNoteUpdate e = false) es ->
  List.filter isUpdateNote (posted (run c es))
  = List.filter isUpdateNote (posted c).
Proof.
  intros Hinit. induction es as [|e es IH] using rev_ind; [done|].
  intros [Hes He]%Forall_app. apply Forall_inv in He.
  rewrite run_snoc, step_upserts, IH by done.
  rewrite (SearchFacts.run_keeps_initialized _ _ es c Hinit).
  destruct e as [[]| |]; simpl in *; by rewrite ?app_nil_r.
Qed.

Lemma run_upserts_before_load (c : Coordinator) (es : list Event) :
  Forall (λ e, isNotesLoaded e = false) es ->
  Forall (λ e, isRemoteNoteUpdate e = false) es ->
  List.filter isUpdateNote (posted (run c es))
  = List.filter isUpdateNote (posted c)
  ∧ hasInitialized (run c es) = hasInitialized c.
Proof.
  induction es as [|e es IH] using rev_ind; [done|].
  intros [Hes He]%Forall_app [Hes' He']%Forall_app.
  apply Forall_inv in He. apply Forall_inv in He'.
  destruct (IH Hes Hes') as [IHp IHi].
  rewrite run_snoc, step_upserts, step_initialized, IHp, IHi, He.
  rewrite orb_false_r. split; [|done].
  destruct e as [[]| |]; simpl in *; by rewrite ?app_nil_r.
Qed.

(** X3. In a session without remote updates, the [updateNote] messages
    on the channel are exactly the notes of the first [App.notesLoaded]
    action, one message per note and in the order of that action, however
    many loads follow. *)
Theorem session_upserts_first_corpus (w : W) (s : AppState)
    (before after : list Event) (first : list NoteEntity) :
  Forall (λ e, isNotesLoaded e = false) before ->
  Forall (λ e, isRemoteNoteUpdate e = false) (before ++ after) ->
  List.filter isUpdateNote
    (posted (run (init w s)
               (before ++ Dispatched (NotesLoaded first) :: after)))
  = upsertOf <$> first.
Proof.
  intros Hload [Hb Ha]%Forall_app.
  destruct (run_upserts_before_load (init w s) before Hload Hb)
    as [Hposted Hinit].
  rewrite SearchFacts.run_app, run_cons.
  rewrite run_upserts_initialized;
    [|rewrite step_initialized; apply orb_true_r|done].
  rewrite step_upserts, Hposted, Hinit. reflexivity.
Qed.

(** X4. Last reply wins, and a reply does not build on the one before:
    when the reducers leave [appState.notes] alone on a [filterNotes]
    action, the second of two filter replies dispatches the live notes
    restricted to its own ids, whatever ids the first one carried. *)
Theorem second_reply_filters_live_notes (c : Coordinator)
    (idsA idsB : gset EntityId) :
  (∀ st l h, notes (reduce st (FilterNotes l h)) = notes st) ->
  dispatched (onmessage (FilterNotesReply idsB)
                (onmessage (FilterNotesReply idsA) c))
  = dispatched c
    ++ [FilterNotes (resolveNotes (notes (appState c)) idsA) None;
        FilterNotes (resolveNotes (notes (appState c)) idsB) None].
Proof.
  intros Hkeep. simpl. unfold setFilteredNotes, dispatch. simpl.
  by rewrite Hkeep, <- app_assoc.
Qed.

(** X5. A reply that carries the id of every live note gives the live
    notes back as they are, duplicates and order included. *)
Theorem reply_with_all_ids_keeps_notes (live : list NoteEntity)
    (noteIds : gset EntityId) :
  (∀ n, n ∈ live → id n ∈ noteIds) ->
  resolveNotes (Some live) noteIds = live.
Proof.
  intros Hall. unfold resolveNotes.
  induction live as [|n live IH]; [done|].
  rewrite filter_cons_True by (apply Hall; left).
  f_equal. apply IH. intros m Hm. apply Hall. by right.
Qed.

End Sessions.

Lemma session_upserts_first_corpus_witness :
  let before := [Dispatched (SearchAction "cat"); Received (OtherReply "x")] in
  let after := [Dispatched (NotesLoaded [Samples.noteX]);
                Dispatched SelectTrash] in
  Forall (λ e : @Event (gset EntityId), isNotesLoaded e = false) before
  ∧ Forall (λ e, isRemoteNoteUpdate e = false) (before ++ after)
  ∧ List.filter isUpdateNote
      (posted (run Samples.sampleUpdateFilter Samples.sampleReduce
                 Samples.notLoaded
                 (before
                  ++ Dispatched (NotesLoaded [Samples.noteA; Samples.noteB])
                  :: after)))
    = [UpdateNote "a" (data Samples.noteA);
       UpdateNote "b" (data Samples.noteB)].
Proof.
  intros before after.
  assert (H1 : Forall (λ e : @Event (gset EntityId), isNotesLoaded e = false)
                 before) by (by repeat constructor).
  assert (H2 : Forall (λ e : @Event (gset EntityId),
                         isRemoteNoteUpdate e = false) (before ++ after))
    by (by repeat constructor).
  split; [exact H1|]. split; [exact H2|].
  exact (session_upserts_first_corpus Samples.sampleUpdateFilter
           Samples.sampleReduce _ _ before after
           [Samples.noteA; Samples.noteB] H1 H2).
Defined.

Lemma second_reply_filters_live_notes_witness :
  (∀ st l h,
     notes (Samples.sampleReduce st (FilterNotes l h)) = notes st)
  ∧ dispatched
      (onmessage Samples.sampleReduce (FilterNotesReply {[ "b" ]})
         (onmessage Samples.sampleReduce (FilterNotesReply {[ "a" ]})
            Samples.loaded))
    = [FilterNotes [Samples.noteA] None; FilterNotes [Samples.noteB] None].
Proof.
  assert (H : ∀ st l h,
            notes (Samples.sampleReduce st (FilterNotes l h)) = notes st)
    by reflexivity.
  split; [exact H|].
  rewrite (second_reply_filters_live_notes Samples.sampleReduce
             Samples.loaded {[ "a" ]} {[ "b" ]} H).
  vm_compute. reflexivity.
Defined.

Lemma reply_with_all_ids_keeps_notes_witness :
  (∀ n, n ∈ [Samples.noteC; Samples.noteA; Samples.noteC]
        → id n ∈ ({[ "a"; "c"; "zz" ]} : gset EntityId))
  ∧ resolveNotes (Some [Samples.noteC; Samples.noteA; Samples.noteC])
      {[ "a"; "c"; "zz" ]}
    = [Samples.noteC; Samples.noteA; Samples.noteC].
Proof.
  assert (H : ∀ n, n ∈ [Samples.noteC; Samples.noteA; Samples.noteC]
                   → id n ∈ ({[ "a"; "c"; "zz" ]} : gset EntityId)).
  { intros n Hn. repeat (apply elem_of_cons in Hn as [->|Hn]);
      [set_solver..|by apply elem_of_nil in Hn]. }
  split; [exact H|].
  exact (reply_with_all_ids_keeps_notes _ _ H).
Defined.

End SearchSessions.

(** * Row heights, the cache and the composite list *)

Module NoteListRows.
Import NoteList.

Section Heights.

Variable measureText : string -> Z -> Q.
Variable getPreview : NoteEntity -> string.

Abbreviation computeRowHeight := (computeRowHeight measureText).
Abbreviation getRowHeight := (getRowHeight measureText getPreview).
Abbreviation uncachedHeight := (uncachedHeight measureText).
Abbreviation coherent := (coherent measureText).

(** **** The computation *)

Lemma computeRowHeight_value (width : Z) (noteDisplay : ListDisplayMode)
    (preview : string) (s : HeightState) :
  (computeRowHeight width noteDisplay preview s).1
  = uncachedHeight width noteDisplay preview.
Proof.
  unfold NoteList.uncachedHeight, NoteList.computeRowHeight.
  by destruct (decide (condensed = noteDisplay)).
Qed.

Lemma uncachedHeight_lines (width : Z) (noteDisplay : ListDisplayMode)
    (preview : string) :
  noteDisplay ≠ condensed ->
  uncachedHeight width noteDisplay preview
  = affine ROW_HEIGHT_BASE ROW_HEIGHT_LINE
      (minWith (maxPreviewLines noteDisplay)
         (ceilDiv (measureText preview (width - 24)) (width - 24))).
Proof.
  intros Hmode. unfold NoteList.uncachedHeight, NoteList.computeRowHeight.
  by rewrite decide_False by congruence.
Qed.

Lemma ceilDiv_pos_divisor (a : Q) (d : Z) :
  0 < d -> ceilDiv a d = Num (Qceiling (a / inject_Z d)).
Proof.
  intros Hd. unfold ceilDiv. by destruct (Z.eqb_spec d 0); [lia|].
Qed.

Lemma div_le_div (a b : Q) (d : Z) :
  0 < d -> (a <= b)%Q -> (a / inject_Z d <= b / inject_Z d)%Q.
Proof.
  intros Hd Hab. apply Qle_shift_div_l; [by apply NoteListFacts.inject_Z_pos|].
  unfold Qdiv. rewrite <- Qmult_assoc, (Qmult_comm (/ _)), Qmult_inv_r.
  - by rewrite Qmult_1_r.
  - intros H0. unfold Qeq in H0. simpl in H0. lia.
Qed.

Lemma maxPreviewLines_nonneg (noteDisplay : ListDisplayMode) :
  0 <= maxPreviewLines noteDisplay.
Proof. destruct noteDisplay; simpl; lia. Qed.

(** X6. In a list wider than 24 pixels, with a text width that is not
    negative, the height of a note row is an integer between the base
    height and the [estimatedRowSize] the list is given for the display
    mode. *)
Theorem height_bounds_wide_list (width : Z) (noteDisplay : ListDisplayMode)
    (preview : string) (s : HeightState) :
  24 < width ->
  (0 <= measureText preview (width - 24))%Q ->
  ∃ h : Z,
    (computeRowHeight width noteDisplay preview s).1 = Num h
    ∧ ROW_HEIGHT_BASE <= h <= estimatedRowSize noteDisplay.
Proof.
  intros Hw Hpos. rewrite computeRowHeight_value.
  destruct (decide (noteDisplay = condensed)) as [->|Hmode].
  { exists ROW_HEIGHT_BASE. split; [reflexivity|].
    unfold estimatedRowSize, ROW_HEIGHT_BASE, ROW_HEIGHT_LINE. simpl. lia. }
  rewrite uncachedHeight_lines, ceilDiv_pos_divisor by (done || lia).
  set (lines := Qceiling _).
  assert (Hlines : 0 <= lines).
  { subst lines. rewrite <- (Qceiling_Z 0). apply Qceiling_resp_le.
    apply Qle_shift_div_l; [apply NoteListFacts.inject_Z_pos; lia|].
    by rewrite Qmult_0_l. }
  eexists. split; [reflexivity|].
  pose proof (maxPreviewLines_nonneg noteDisplay).
  unfold estimatedRowSize, ROW_HEIGHT_BASE, ROW_HEIGHT_LINE. lia.
Qed.

(** X7. In a list exactly 24 pixels wide the divisor is zero: outside
    condensed mode a preview of positive text width gets the full
    [estimatedRowSize], and a preview of text width zero gets [NaN]. *)
Theorem height_at_divisor_zero (noteDisplay : ListDisplayMode)
    (preview : string) (s : HeightState) :
  noteDisplay ≠ condensed ->
  (0 <= measureText preview 0)%Q ->
  (computeRowHeight 24 noteDisplay preview s).1
  = if Qeq_dec (measureText preview 0) 0 then NaN
    else Num (estimatedRowSize noteDisplay).
Proof.
  intros Hmode Hpos. rewrite computeRowHeight_value.
  rewrite uncachedHeight_lines by done.
  change (24 - 24) with 0. unfold ceilDiv. simpl.
  destruct (Qeq_dec (measureText preview 0) 0) as [Hz|Hnz].
  - destruct (Qlt_le_dec 0 (measureText preview 0)) as [Hlt|_].
    { rewrite Hz in Hlt. by apply Qlt_irrefl in Hlt. }
    destruct (Qlt_le_dec (measureText preview 0) 0) as [Hlt|_]; [|done].
    rewrite Hz in Hlt. by apply Qlt_irrefl in Hlt.
  - destruct (Qlt_le_dec 0 (measureText preview 0)) as [_|Hle]; [done|].
    exfalso. apply Hnz. by apply Qle_antisym.
Qed.

(** X8. In a list wider than 24 pixels a preview that measures wider
    never gets a lower row. *)
Theorem height_monotone_in_text_width (width : Z)
    (noteDisplay : ListDisplayMode) (narrow wide : string)
    (s s' : HeightState) :
  24 < width ->
  (measureText narrow (width - 24) <= measureText wide (width - 24))%Q ->
  ∃ h h' : Z,
    (computeRowHeight width noteDisplay narrow s).1 = Num h
    ∧ (computeRowHeight width noteDisplay wide s').1 = Num h'
    ∧ h <= h'.
Proof.
  intros Hw Hle. rewrite !computeRowHeight_value.
  destruct (decide (noteDisplay = condensed)) as [->|Hmode].
  { exists ROW_HEIGHT_BASE, ROW_HEIGHT_BASE. by split_and!. }
  rewrite !uncachedHeight_lines, !ceilDiv_pos_divisor by (done || lia).
  eexists _, _. split_and!; [reflexivity..|].
  assert (Qceiling (measureText narrow (width - 24) / inject_Z (width - 24))
          <= Qceiling (measureText wide (width - 24) / inject_Z (width - 24))).
  { apply Qceiling_resp_le, div_le_div; [lia|done]. }
  unfold ROW_HEIGHT_LINE. lia.
Qed.

(** **** The cache *)

(** A call for a note row either finds its entry, and changes nothing,
    or computes the height and writes the entry. *)
Lemma note_row_call (noteDisplay : ListDisplayMode) (tagResultsFound : nat)
    (width : Z) (note : NoteEntity) (s : HeightState) :
  let r := rowHeightOf getPreview computeRowHeight noteDisplay
             tagResultsFound width (NoteRow note) s in
  let entry := (width, noteDisplay, getPreview note, r.1) in
  (previewCache s !! id note = Some entry ∧ r.2 = s)
  ∨ (r.1 = uncachedHeight width noteDisplay (getPreview note)
     ∧ previewCache r.2 = <[id note := entry]> (previewCache s)).
Proof.
  unfold rowHeightOf, mbind, M_bind, bind, cacheGet, cacheSet, ret. simpl.
  pose proof (NoteListFacts.computeRowHeight_measures_once measureText
                width noteDisplay (getPreview note) s) as [Hc _].
  pose proof (computeRowHeight_value width noteDisplay (getPreview note) s)
    as Hv.
  destruct (previewCache s !! id note)
    as [[[[cWidth cMode] cPreview] cHeight]|] eqn:Hget; simpl.
  - destruct (bool_decide (cWidth = width)
              && bool_decide (cMode = noteDisplay)
              && bool_decide (cPreview = getPreview note)) eqn:Hhit; simpl.
    + left. apply andb_true_iff in Hhit as [Hhit Hp].
      apply andb_true_iff in Hhit as [Hw Hm].
      apply bool_decide_eq_true in Hw, Hm, Hp. by subst.
    + right.
      destruct (computeRowHeight width noteDisplay (getPreview note) s)
        as [h s'] eqn:Hf; simpl in *. by rewrite Hc.
  - right.
    destruct (computeRowHeight width noteDisplay (getPreview note) s)
      as [h s'] eqn:Hf; simpl in *. by rewrite Hc.
Qed.

Lemma getRowHeight_note (notes : list Row) (noteDisplay : ListDisplayMode)
    (tagResultsFound : nat) (width : Z) (index : nat) (note : NoteEntity)
    (s : HeightState) :
  notes !! index = Some (NoteRow note) ->
  getRowHeight notes noteDisplay tagResultsFound width index s
  = let r := rowHeightOf getPreview computeRowHeight noteDisplay
               tagResultsFound width (NoteRow note) s in
    (Some r.1, r.2).
Proof.
  intros Hrow. unfold NoteList.getRowHeight, rowHeightCache. rewrite Hrow.
  unfold mbind, M_bind, bind, ret.
  by destruct (rowHeightOf _ _ _ _ _ _ s).
Qed.

Lemma getRowHeight_other (notes : list Row) (noteDisplay : ListDisplayMode)
    (tagResultsFound : nat) (width : Z) (index : nat) (s : HeightState) :
  (∀ note, notes !! index ≠ Some (NoteRow note)) ->
  (getRowHeight notes noteDisplay tagResultsFound width index s).2 = s.
Proof.
  intros Hrow. unfold NoteList.getRowHeight, rowHeightCache.
  destruct (notes !! index) as [[note| | |]|]; try reflexivity.
  by destruct (Hrow note).
Qed.

(** X9. The cache is transparent.  If every stored height is the height
    of the width, display mode and preview stored with it, then a call of
    the row-height function returns for a note row exactly the height the
    computation gives for the current width, mode and preview, and the
    cache it leaves has the same property. *)
Theorem cache_is_transparent (notes : list Row)
    (noteDisplay : ListDisplayMode) (tagResultsFound : nat) (width : Z)
    (index : nat) (s : HeightState) :
  coherent (previewCache s) ->
  let r := getRowHeight notes noteDisplay tagResultsFound width index s in
  coherent (previewCache r.2)
  ∧ ∀ note, notes !! index = Some (NoteRow note) →
      r.1 = Some (uncachedHeight width noteDisplay (getPreview note)).
Proof.
  intros Hco r.
  destruct (notes !! index) as [row|] eqn:Hrow.
  2:{ subst r. rewrite getRowHeight_other by (by rewrite Hrow).
      split; [done|]. by intros. }
  destruct row as [note| | |];
    try (subst r; rewrite getRowHeight_other by (by rewrite Hrow);
         split; [done|]; by intros).
  subst r. rewrite (getRowHeight_note _ _ _ _ _ note) by done.
  cbn zeta. cbn [fst snd].
  destruct (note_row_call noteDisplay tagResultsFound width note s)
    as [[Hhit ->]|[Hval Hcache]].
  - split; [done|]. intros ? [= <-]. f_equal. by apply (Hco (id note)).
  - split.
    + rewrite Hcache. intros key w m p h.
      destruct (decide (id note = key)) as [<-|Hne].
      * rewrite lookup_insert_eq. intros [= <- <- <- <-]. exact Hval.
      * rewrite lookup_insert_ne by done. apply Hco.
    + intros ? [= <-]. by f_equal.
Qed.

(** X10. After a call for a note row the cache holds, under the id of
    the note, the width, display mode and preview of the call together
    with the height the call returned; the entries of all other ids are
    as they were. *)
Theorem cache_entry_after_call (notes : list Row)
    (noteDisplay : ListDisplayMode) (tagResultsFound : nat) (width : Z)
    (index : nat) (note : NoteEntity) (s : HeightState) :
  notes !! index = Some (NoteRow note) ->
  let r := getRowHeight notes noteDisplay tagResultsFound width index s in
  ∃ h : JsNumber,
    r.1 = Some h
    ∧ previewCache r.2 !! id note
      = Some (width, noteDisplay, getPreview note, h)
    ∧ ∀ key, key ≠ id note →
        previewCache r.2 !! key = previewCache s !! key.
Proof.
  intros Hrow r. subst r. rewrite (getRowHeight_note _ _ _ _ _ note) by done.
  cbn zeta. cbn [fst snd].
  destruct (note_row_call noteDisplay tagResultsFound width note s)
    as [[Hhit ->]|[Hval Hcache]].
  - eexists. split; [reflexivity|]. by split.
  - eexists. split; [reflexivity|]. rewrite Hcache. split.
    + by rewrite lookup_insert_eq.
    + intros key Hne. by rewrite lookup_insert_ne.
Qed.

(** X11. A call for a row that is not a note, or for an index outside the
    list, measures no text; and in condensed mode no call ever does. *)
Theorem no_measurement_without_preview (notes : list Row)
    (noteDisplay : ListDisplayMode) (tagResultsFound : nat) (width : Z)
    (index : nat) (s : HeightState) :
  (∀ note, notes !! index ≠ Some (NoteRow note)) ∨ noteDisplay = condensed ->
  measurements
    (getRowHeight notes noteDisplay tagResultsFound width index s).2
  = measurements s.
Proof.
  intros [Hother| ->]; [by rewrite getRowHeight_other|].
  destruct (notes !! index) as [row|] eqn:Hrow.
  2:{ rewrite getRowHeight_other; [done|]. by rewrite Hrow. }
  destruct row as [note| | |];
    try (rewrite getRowHeight_other; [done|by rewrite Hrow]).
  rewrite (getRowHeight_note _ _ _ _ _ note) by done. cbn zeta. cbn [snd].
  unfold rowHeightOf, mbind, M_bind, bind, cacheGet, cacheSet, ret. simpl.
  destruct (previewCache s !! id note)
    as [[[[cWidth cMode] cPreview] cHeight]|]; simpl; [|done].
  by destruct (_ && _).
Qed.

End Heights.

Lemma height_bounds_wide_list_witness :
  24 < 104
  ∧ (0 <= Samples.monospace "a long preview text" (104 - 24))%Q
  ∧ ∃ h : Z,
      (computeRowHeight Samples.monospace 104 expanded "a long preview text"
         Samples.emptyCache).1 = Num h
      ∧ ROW_HEIGHT_BASE <= h <= estimatedRowSize expanded.
Proof.
  split; [lia|]. split; [vm_compute; discriminate|].
  apply (height_bounds_wide_list Samples.monospace 104 expanded
           "a long preview text" Samples.emptyCache);
    [lia | vm_compute; discriminate].
Defined.

Lemma height_at_divisor_zero_witness :
  comfy ≠ condensed
  ∧ (0 <= Samples.monospace EmptyString 0)%Q
  ∧ (computeRowHeight Samples.monospace 24 comfy EmptyString
       Samples.emptyCache).1 = NaN.
Proof.
  split; [discriminate|]. split; [vm_compute; discriminate|].
  rewrite (height_at_divisor_zero Samples.monospace comfy EmptyString
             Samples.emptyCache);
    [reflexivity | discriminate | vm_compute; discriminate].
Defined.

Lemma height_monotone_in_text_width_witness :
  24 < 104
  ∧ (Samples.monospace "short" (104 - 24)
     <= Samples.monospace "a much longer preview" (104 - 24))%Q
  ∧ ∃ h h' : Z,
      (computeRowHeight Samples.monospace 104 expanded "short"
         Samples.emptyCache).1 = Num h
      ∧ (computeRowHeight Samples.monospace 104 expanded
           "a much longer preview" Samples.emptyCache).1 = Num h'
      ∧ h <= h'.
Proof.
  split; [lia|]. split; [vm_compute; discriminate|].
  apply (height_monotone_in_text_width Samples.monospace 104 expanded
           "short" "a much longer preview");
    [lia | vm_compute; discriminate].
Defined.

Lemma cache_is_transparent_witness :
  coherent Samples.monospace (previewCache Samples.emptyCache)
  ∧ (getRowHeight Samples.monospace Samples.samplePreview
       [NotesHeader; NoteRow Samples.noteB] comfy 0 104 1
       Samples.emptyCache).1
    = Some (uncachedHeight Samples.monospace 104 comfy "dog").
Proof.
  assert (H : coherent Samples.monospace (previewCache Samples.emptyCache)).
  { intros key w m p h Hget. simpl in Hget.
    by rewrite lookup_empty in Hget. }
  split; [exact H|].
  destruct (cache_is_transparent Samples.monospace Samples.samplePreview
              [NotesHeader; NoteRow Samples.noteB] comfy 0 104 1
              Samples.emptyCache H) as [_ Hval].
  exact (Hval Samples.noteB eq_refl).
Defined.

Lemma cache_entry_after_call_witness :
  [NotesHeader; NoteRow Samples.noteB] !! 1%nat
    = Some (NoteRow Samples.noteB)
  ∧ ∃ h : JsNumber,
      previewCache
        (getRowHeight Samples.monospace Samples.samplePreview
           [NotesHeader; NoteRow Samples.noteB] comfy 0 104 1
           Samples.emptyCache).2 !! "b"
      = Some (104, comfy, "dog", h).
Proof.
  split; [reflexivity|].
  destruct (cache_entry_after_call Samples.monospace Samples.samplePreview
              [NotesHeader; NoteRow Samples.noteB] comfy 0 104 1
              Samples.noteB Samples.emptyCache eq_refl)
    as (h & _ & Hentry & _).
  exists h. exact Hentry.
Defined.

Lemma no_measurement_without_preview_witness :
  ((∀ note, [NotesHeader; NoteRow Samples.noteB] !! 1%nat
            ≠ Some (NoteRow note)) ∨ condensed = condensed)
  ∧ measurements
      (getRowHeight Samples.monospace Samples.samplePreview
         [NotesHeader; NoteRow Samples.noteB] condensed 0 104 1
         Samples.emptyCache).2
    = 0%nat.
Proof.
  assert (H : (∀ note, [NotesHeader; NoteRow Samples.noteB] !! 1%nat
                       ≠ Some (NoteRow note)) ∨ condensed = condensed)
    by (by right).
  split; [exact H|].
  exact (no_measurement_without_preview Samples.monospace
           Samples.samplePreview [NotesHeader; NoteRow Samples.noteB]
           condensed 0 104 1 Samples.emptyCache H).
Defined.

(** **** The composite list and the highlighted row *)

(** The number of rows put in front of the notes. *)
Lemma composite_rows (notes : list NoteEntity) (searchQuery : string)
    (tagResultsFound : nat) :
  ∃ front : list Row,
    createCompositeNoteList notes searchQuery tagResultsFound
    = front ++ (if decide (notes = []) then
                  if decide (front = []) then [] else [NoNotes]
                else NoteRow <$> notes)
    ∧ front = (if decide (searchQuery = EmptyString ∨ tagResultsFound = 0%nat)
               then [] else [TagSuggestions; NotesHeader]).
Proof.
  unfold createCompositeNoteList.
  rewrite NoteListFacts.length_zero_empty, NoteListFacts.length_pos_nonempty.
  destruct (decide (searchQuery = EmptyString ∨ tagResultsFound = 0%nat))
    as [Hplain|Hsugg].
  - exists []. split; [|done].
    replace (bool_decide (searchQuery = EmptyString)
             || (tagResultsFound =? 0)%nat) with true.
    + by destruct notes.
    + symmetry. destruct Hplain as [->| ->]; [done|apply orb_true_r].
  - exists [TagSuggestions; NotesHeader]. split; [|done].
    rewrite bool_decide_eq_false_2 by tauto.
    destruct tagResultsFound; [tauto|]. simpl. by destruct notes.
Qed.

(** X12. [render] finds the row of a note by adding [specialRows] to its
    index in the filtered list.  That number is [0] without tag
    suggestions, [2] with suggestions and notes, and [3] with suggestions
    and no note; and the composite list has, at every index of the
    filtered list plus [specialRows], the row of the note at that
    index. *)
Theorem special_rows_offset (notes : list NoteEntity) (searchQuery : string)
    (tagResultsFound : nat) (i : nat) :
  let composite := createCompositeNoteList notes searchQuery tagResultsFound in
  let special := specialRows composite notes in
  special
  = (if decide (searchQuery = EmptyString ∨ tagResultsFound = 0%nat) then 0
     else if decide (notes = []) then 3 else 2)
  ∧ at_ composite (Z.of_nat i + special) = NoteRow <$> notes !! i.
Proof.
  intros composite special. subst special composite. unfold specialRows.
  destruct (composite_rows notes searchQuery tagResultsFound)
    as (front & -> & ->).
  destruct (decide (searchQuery = EmptyString ∨ tagResultsFound = 0%nat));
    destruct (decide (notes = [])) as [->|Hne]; simpl.
  - split; [done|]. rewrite Z.add_0_r, NoteListFacts.at_lookup. done.
  - rewrite length_fmap. split; [lia|].
    replace (Z.of_nat i + _) with (Z.of_nat i) by lia.
    by rewrite NoteListFacts.at_lookup, list_lookup_fmap.
  - split; [done|]. apply NoteListFacts.at_outside. right. simpl. lia.
  - rewrite length_fmap. split; [lia|].
    replace (Z.of_nat i + _) with (Z.of_nat (2 + i)) by lia.
    by rewrite NoteListFacts.at_lookup, <- list_lookup_fmap.
Qed.

(** X13. When the state holds the index of a note of the filtered list,
    the row that [render] marks as selected in the composite list is the
    row of that note, and it is the only row marked; on a small screen no
    row is marked. *)
Theorem selected_row_is_state_note (notes : list NoteEntity)
    (searchQuery : string) (tagResultsFound : nat) (state : Selected)
    (i : Z) (n : NoteEntity) (isSmallScreen : bool) :
  index state = Some i ->
  at_ notes i = Some n ->
  let composite := createCompositeNoteList notes searchQuery tagResultsFound in
  let highlightedIndex :=
    adjustedHighlight state (specialRows composite notes) in
  ∃ row : Z,
    highlightedIndex = Some row
    ∧ at_ composite row = Some (NoteRow n)
    ∧ ∀ j, isRowSelected isSmallScreen highlightedIndex j
           = negb isSmallScreen && bool_decide (j = row).
Proof.
  intros Hidx Hat composite highlighted. subst highlighted.
  unfold adjustedHighlight. rewrite Hidx.
  exists (i + specialRows composite notes). split; [done|].
  apply NoteListFacts.at_Some in Hat as [Hi Hlook].
  split.
  - subst composite. unfold specialRows.
    destruct (composite_rows notes searchQuery tagResultsFound)
      as (front & -> & Hfront).
    assert (Hne : notes ≠ []) by (intros ->; by rewrite lookup_nil in Hlook).
    rewrite (decide_False _ _ Hne), length_app, length_fmap.
    replace (i + _) with (Z.of_nat (length front + Z.to_nat i)) by lia.
    rewrite NoteListFacts.at_lookup, lookup_app_r by lia.
    replace (length front + Z.to_nat i - length front)%nat
      with (Z.to_nat i) by lia.
    by rewrite list_lookup_fmap, Hlook.
  - intros j. unfold isRowSelected. f_equal.
    apply bool_decide_ext. split; [by intros [= ->]|by intros ->].
Qed.

Lemma selected_row_is_state_note_witness :
  let notes := [Samples.noteA; Samples.noteB; Samples.noteC] in
  let state := mkSelected (Some "b") (Some 1) in
  let composite := createCompositeNoteList notes "ca" 2 in
  index state = Some 1
  ∧ at_ notes 1 = Some Samples.noteB
  ∧ ∃ row : Z,
      adjustedHighlight state (specialRows composite notes) = Some row
      ∧ at_ composite row = Some (NoteRow Samples.noteB)
      ∧ row = 3.
Proof.
  intros notes state composite. split; [reflexivity|]. split; [reflexivity|].
  destruct (selected_row_is_state_note notes "ca" 2 state 1 Samples.noteB
              false eq_refl eq_refl) as (row & Hrow & Hat & _).
  exists row. split; [exact Hrow|]. split; [exact Hat|].
  vm_compute in Hrow. by injection Hrow as <-.
Defined.

End NoteListRows.

(** * Selection across list changes and keyboard moves *)

Module NoteListSelection.
Import NoteList.

(** ** The highlighted index *)

Lemma at_range {A} (l : list A) (i : Z) (x : A) :
  at_ l i = Some x -> 0 <= i < Z.of_nat (length l).
Proof.
  intros [Hi Hl]%NoteListFacts.at_Some. apply lookup_lt_Some in Hl. lia.
Qed.

Lemma selectedIsAt_true (s : NoteEntity) (notes : list NoteEntity)
    (i : option Z) :
  selectedIsAt (Some s) notes i = true
  ↔ ∃ z n, i = Some z ∧ at_ notes z = Some n ∧ id n = id s.
Proof.
  unfold selectedIsAt, idOf. rewrite andb_true_iff, !bool_decide_eq_true.
  split.
  - intros [_ Hid]. destruct i as [z|]; [|done]. simpl in *.
    destruct (at_ notes z) as [n|] eqn:Hat; [|done].
    injection Hid as Hid. exists z, n. by split_and!.
  - intros (z & n & -> & Hat & Hid). split; [eauto|]. simpl.
    rewrite Hat. simpl. by rewrite Hid.
Qed.

Lemma findIndex_range {A} (p : A -> bool) (l : list A) :
  findIndex p l = -1 ∨ 0 <= findIndex p l < Z.of_nat (length l).
Proof.
  destruct (NoteListFacts.findIndexFrom_range p l 0) as [H|H]; [lia|..];
    unfold findIndex; [by left|right; lia].
Qed.

(** The resolved index is inside the list whenever the recorded index is
    not negative and either a note is selected or the recorded index is
    inside the list. *)
Lemma getHighlightedIndex_range (props : Props) (state : Selected) (i : Z) :
  0 <= toNumber (index state) ->
  is_Some (selectedNote props)
  ∨ toNumber (index state) < Z.of_nat (length (notes props)) ->
  getHighlightedIndex props state = Some i ->
  0 <= i < Z.of_nat (length (notes props)).
Proof.
  intros Hidx Hsel. unfold getHighlightedIndex.
  destruct (notes props) as [|n0 ns] eqn:Hnotes; [done|].
  change (length (n0 :: ns) =? 0)%nat with false. cbn iota.
  destruct (bool_decide (selectedNote props = None)
            && negb (truthyIndex (index state))) eqn:Hfirst.
  { destruct (Z.ltb_spec (-1)
                (findIndex (λ item, truthyId (id item)) (n0 :: ns)));
      [|done].
    intros [= <-].
    destruct (findIndex_range (λ item, truthyId (id item)) (n0 :: ns));
      lia. }
  destruct (selectedNote props) as [s|] eqn:Hs.
  - destruct (selectedIsAt (Some s) (n0 :: ns) (index state)) eqn:Hat.
    { apply selectedIsAt_true in Hat as (z & n & Hz & Hat & _).
      rewrite Hz. intros [= <-]. by apply at_range in Hat. }
    rewrite bool_decide_eq_true_2 by eauto. cbn [andb].
    destruct (Z.ltb_spec (-1) (findIndex (isSelected (Some s)) (n0 :: ns))).
    + intros [= <-].
      destruct (findIndex_range (isSelected (Some s)) (n0 :: ns)); lia.
    + intros [= <-]. simpl length. lia.
  - assert (selectedIsAt None (n0 :: ns) (index state) = false) as ->
      by reflexivity.
    rewrite bool_decide_eq_false_2 by (by intros [? ?]). cbn [andb].
    intros Hi. rewrite Hi in Hidx. destruct Hsel as [[? ?]|Hlt]; [done|].
    rewrite Hi in Hlt. simpl in *. lia.
Qed.

(** X14. With a note selected and a recorded index that is not negative,
    a list that is not empty always gets a highlighted index, inside the
    list; and when the selected id is in the list, the entry at that
    index has it, on the quick path as on the search. *)
Theorem selected_note_resolves_in_range (props : Props) (state : Selected)
    (s : NoteEntity) :
  notes props ≠ [] ->
  selectedNote props = Some s ->
  0 <= toNumber (index state) ->
  ∃ i : Z,
    getHighlightedIndex props state = Some i
    ∧ 0 <= i < Z.of_nat (length (notes props))
    ∧ (id s ∈ (id <$> notes props) →
       ∃ n, at_ (notes props) i = Some n ∧ id n = id s).
Proof.
  intros Hne Hsel Hidx.
  assert (Hsome : ∃ i, getHighlightedIndex props state = Some i
            ∧ (id s ∈ (id <$> notes props) →
               ∃ n, at_ (notes props) i = Some n ∧ id n = id s)).
  { unfold getHighlightedIndex. rewrite Hsel.
    destruct (notes props) as [|n0 ns] eqn:Hnotes; [done|].
    change (length (n0 :: ns) =? 0)%nat with false. cbn iota.
    rewrite bool_decide_eq_false_2 by done. cbn [andb].
    destruct (selectedIsAt (Some s) (n0 :: ns) (index state)) eqn:Hat.
    { apply selectedIsAt_true in Hat as (z & n & -> & Hat & Hid). eauto. }
    rewrite bool_decide_eq_true_2 by eauto. cbn [andb].
    destruct (Z.ltb_spec (-1) (findIndex (isSelected (Some s)) (n0 :: ns)))
      as [Hfound|Hnone].
    - eexists. split; [reflexivity|]. intros _.
      destruct (NoteListFacts.findIndexFrom_found (isSelected (Some s))
                  (n0 :: ns) 0) as (k & x & Hk & Hl & Hx & _);
        [lia|unfold findIndex in Hfound; lia|].
      unfold findIndex. rewrite Hk. exists x.
      rewrite Z.add_0_l, NoteListFacts.at_lookup.
      split; [done|]. by apply NoteListFacts.isSelected_id.
    - eexists. split; [reflexivity|]. intros Hin. exfalso.
      apply list_elem_of_fmap in Hin as (n & Hid & Hn).
      apply (NoteListFacts.findIndex_exists (isSelected (Some s)) _ n Hn);
        [by apply NoteListFacts.isSelected_id|].
      destruct (findIndex_range (isSelected (Some s)) (n0 :: ns)); lia. }
  destruct Hsome as (i & Hi & Hpoints). exists i.
  split; [done|]. split; [|done].
  apply (getHighlightedIndex_range props state i Hidx); [|done].
  left. rewrite Hsel. eauto.
Qed.

(** X15. With no note selected and no recorded index (or index [0]) the
    highlighted index is the first entry that has a usable id; when no
    entry has one, nothing is highlighted. *)
Theorem first_usable_note_is_highlighted (props : Props) (state : Selected) :
  selectedNote props = None ->
  truthyIndex (index state) = false ->
  match getHighlightedIndex props state with
  | Some i =>
      ∃ (k : nat) (n : NoteEntity),
        i = Z.of_nat k ∧ notes props !! k = Some n
        ∧ truthyId (id n) = true
        ∧ ∀ (j : nat) (m : NoteEntity),
            (j < k)%nat → notes props !! j = Some m → truthyId (id m) = false
  | None => ∀ n, n ∈ notes props → truthyId (id n) = false
  end.
Proof.
  intros Hsel Hidx. unfold getHighlightedIndex. rewrite Hsel, Hidx.
  destruct (notes props) as [|n0 ns] eqn:Hnotes.
  { simpl. intros n Hn. by apply elem_of_nil in Hn. }
  change (length (n0 :: ns) =? 0)%nat with false. cbn iota.
  rewrite bool_decide_eq_true_2 by done. cbn [andb negb].
  destruct (Z.ltb_spec (-1)
              (findIndex (λ item, truthyId (id item)) (n0 :: ns)))
    as [Hfound|Hnone].
  - destruct (NoteListFacts.findIndexFrom_found
                (λ item, truthyId (id item)) (n0 :: ns) 0)
      as (k & x & Hk & Hl & Hx & Hbefore);
      [lia|unfold findIndex in Hfound; lia|].
    exists k, x. unfold findIndex. rewrite Hk. split_and!; [lia|done..].
  - destruct (findIndex_range (λ item, truthyId (id item)) (n0 :: ns))
      as [Heq|?]; [|lia].
    apply NoteListFacts.findIndexFrom_none in Heq; [|lia].
    rewrite Forall_forall in Heq. exact Heq.
Qed.

Lemma selected_note_resolves_in_range_witness :
  let props := mkProps [Samples.noteA; Samples.noteC] (Some Samples.noteB)
                 None false in
  let state := mkSelected (Some "b") (Some 7) in
  notes props ≠ []
  ∧ selectedNote props = Some Samples.noteB
  ∧ 0 <= toNumber (index state)
  ∧ ∃ i : Z, getHighlightedIndex props state = Some i ∧ 0 <= i < 2.
Proof.
  intros props state.
  assert (H1 : notes props ≠ []) by discriminate.
  assert (H3 : 0 <= toNumber (index state)) by (simpl; lia).
  split; [exact H1|]. split; [reflexivity|]. split; [exact H3|].
  destruct (selected_note_resolves_in_range props state Samples.noteB
              H1 eq_refl H3) as (i & Hi & Hrange & _).
  exists i. split; [exact Hi|exact Hrange].
Defined.

Lemma first_usable_note_is_highlighted_witness :
  let props := mkProps [mkEntity EmptyString (mkNote "draft" []);
                        Samples.noteA; Samples.noteB] None None false in
  selectedNote props = None
  ∧ truthyIndex (index initialSelected) = false
  ∧ ∃ (k : nat) (n : NoteEntity),
      getHighlightedIndex props initialSelected = Some (Z.of_nat k)
      ∧ notes props !! k = Some n ∧ truthyId (id n) = true.
Proof.
  intros props. split; [reflexivity|]. split; [reflexivity|].
  pose proof (first_usable_note_is_highlighted props initialSelected
                eq_refl eq_refl) as H.
  destruct (getHighlightedIndex props initialSelected) as [i|] eqn:Hi.
  - destruct H as (k & n & -> & Hl & Hn & _). by exists k, n.
  - exfalso. specialize (H Samples.noteA). discriminate H.
    right. left.
Defined.

(** ** Props updates *)

(** X16. [UNSAFE_componentWillReceiveProps] keeps the state in step with
    the list.  When the recorded index is not negative and either a note
    is selected or the recorded index is inside the incoming list, it
    does not fail; and the state it sets is either the empty one, with no
    call of [onSelectNote], or the id and index of an entry of the
    incoming list, with at most one call of [onSelectNote], for that
    id. *)
Theorem receiveProps_keeps_state_consistent (thisProps nextProps : Props)
    (state : Selected) :
  0 <= toNumber (index state) ->
  is_Some (selectedNote nextProps)
  ∨ toNumber (index state) < Z.of_nat (length (notes nextProps)) ->
  match componentWillReceiveProps thisProps nextProps state with
  | Unchanged => True
  | TypeError => False
  | SetState st calls =>
      (st = initialSelected ∧ calls = [])
      ∨ ∃ (i : Z) (n : NoteEntity),
          at_ (notes nextProps) i = Some n
          ∧ st = {| noteId := Some (id n); index := Some i |}
          ∧ (calls = [] ∨ calls = [id n])
  end.
Proof.
  intros Hidx Hsel. unfold componentWillReceiveProps.
  destruct (selectionInPlace thisProps nextProps state); [done|].
  destruct (getHighlightedIndex nextProps state) as [i|] eqn:Hi;
    [|by left].
  pose proof (getHighlightedIndex_range nextProps state i Hidx Hsel Hi)
    as Hrange.
  destruct (at_ (notes nextProps) i) as [n|] eqn:Hat.
  - right. exists i, n. split_and!; [done..|].
    destruct (selectedNote nextProps); [|by right].
    case_bool_decide; [by left|by right].
  - unfold at_ in Hat. destruct (Z.ltb_spec i 0); [lia|].
    apply lookup_ge_None in Hat. lia.
Qed.

(** X17. Selection settles.  Once the state holds the id and index of an
    entry of the list and the store has made that note the selected one,
    a further props update with that list requests nothing and leaves
    the state as it is. *)
Theorem receiveProps_settles (thisProps nextProps : Props)
    (state : Selected) (i : Z) (n s : NoteEntity) :
  at_ (notes nextProps) i = Some n ->
  state = {| noteId := Some (id n); index := Some i |} ->
  selectedNote nextProps = Some s ->
  id s = id n ->
  componentWillReceiveProps thisProps nextProps state = Unchanged
  ∨ componentWillReceiveProps thisProps nextProps state = SetState state [].
Proof.
  intros Hat -> Hsel Hid. unfold componentWillReceiveProps.
  destruct (selectionInPlace thisProps nextProps _); [by left|]. right.
  assert (Hcheap : selectedIsAt (Some s) (notes nextProps) (Some i) = true).
  { apply selectedIsAt_true. by exists i, n. }
  assert (Hres : getHighlightedIndex nextProps
                   {| noteId := Some (id n); index := Some i |} = Some i).
  { unfold getHighlightedIndex. rewrite Hsel. cbn [index].
    destruct (notes nextProps) as [|n0 ns] eqn:Hnotes.
    { apply at_range in Hat. simpl in Hat. lia. }
    change (length (n0 :: ns) =? 0)%nat with false. cbn iota.
    rewrite bool_decide_eq_false_2 by done. cbn [andb].
    by rewrite Hcheap. }
  rewrite Hres, Hat, Hsel. by rewrite bool_decide_eq_true_2.
Qed.

Lemma receiveProps_keeps_state_consistent_witness :
  let props := mkProps [Samples.noteA; Samples.noteC] (Some Samples.noteB)
                 None false in
  let state := mkSelected (Some "b") (Some 1) in
  0 <= toNumber (index state)
  ∧ (is_Some (selectedNote props)
     ∨ toNumber (index state) < Z.of_nat (length (notes props)))
  ∧ componentWillReceiveProps props props state ≠ TypeError.
Proof.
  intros props state.
  assert (H1 : 0 <= toNumber (index state)) by (simpl; lia).
  assert (H2 : is_Some (selectedNote props)
               ∨ toNumber (index state) < Z.of_nat (length (notes props)))
    by (left; eexists; reflexivity).
  split; [exact H1|]. split; [exact H2|].
  intros Hthrows.
  pose proof (receiveProps_keeps_state_consistent props props state H1 H2)
    as H.
  rewrite Hthrows in H. exact H.
Defined.

Lemma receiveProps_settles_witness :
  let props := mkProps [Samples.noteA; Samples.noteC] (Some Samples.noteC)
                 None false in
  let state := mkSelected (Some "c") (Some 1) in
  at_ (notes props) 1 = Some Samples.noteC
  ∧ selectedNote props = Some Samples.noteC
  ∧ (componentWillReceiveProps props props state = Unchanged
     ∨ componentWillReceiveProps props props state = SetState state []).
Proof.
  intros props state. split; [reflexivity|]. split; [reflexivity|].
  exact (receiveProps_settles props props state 1 Samples.noteC
           Samples.noteC eq_refl eq_refl eq_refl eq_refl).
Defined.

(** ** Keyboard moves *)

Lemma validIdAt_Some (notes : list NoteEntity) (i : Z) (x : EntityId) :
  validIdAt notes i = Some x ->
  ∃ n, at_ notes i = Some n ∧ x = id n ∧ truthyId (id n) = true.
Proof.
  unfold validIdAt. destruct (at_ notes i) as [n|]; [|done].
  destruct (truthyId (id n)) eqn:Hn; [|done].
  intros [= <-]. by exists n.
Qed.

Section Shortcuts.

Variable toLowerCase : string -> string.

Abbreviation isPreviousChord := (isPreviousChord toLowerCase).
Abbreviation isNextChord := (isNextChord toLowerCase).
Abbreviation handleShortcut := (handleShortcut toLowerCase).

Lemma chord_modifiers (event : KeyEvent) :
  isPreviousChord event = true ∨ isNextChord event = true ->
  cmdOrCtrl event = true ∧ shiftKey event = true.
Proof.
  unfold NoteList.isPreviousChord, NoteList.isNextChord.
  intros [H|H]; apply andb_true_iff in H as [H _];
    by apply andb_true_iff in H.
Qed.

(** X18. Whatever the key event, the handler either passes it through
    untouched, or consumes it for a move to an entry next to the recorded
    index.  In the second case Shift and Control or Meta are held, the id
    it requests is usable, so the connected [onSelectNote] forwards it to
    the store, and the event is stopped and its default prevented. *)
Theorem shortcut_consumes_only_moves (props : Props) (state : Selected)
    (event : KeyEvent) :
  let r := handleShortcut props state event in
  r = passThrough
  ∨ ∃ n : NoteEntity,
      (at_ (notes props) (toNumber (index state) - 1) = Some n
       ∨ at_ (notes props) (toNumber (index state) + 1) = Some n)
      ∧ r = selectAndStop (id n)
      ∧ onSelectNote (selectRequest r) = [id n]
      ∧ cmdOrCtrl event = true ∧ shiftKey event = true.
Proof.
  intros r. subst r. unfold NoteList.handleShortcut.
  destruct (isPreviousChord event) eqn:Hprev.
  - destruct (bool_decide _); [by left|].
    destruct (_ <? 0); [by left|].
    destruct (validIdAt _ _) as [x|] eqn:Hvalid; [|by left].
    apply validIdAt_Some in Hvalid as (n & Hat & -> & Hn). right.
    exists n. destruct (chord_modifiers event) as [? ?]; [by left|].
    split_and!; [by left|done| |done..].
    simpl. by rewrite Hn.
  - destruct (isNextChord event) eqn:Hnext; [|by left].
    destruct (bool_decide _); [by left|].
    destruct (_ <=? _); [by left|].
    destruct (validIdAt _ _) as [x|] eqn:Hvalid; [|by left].
    apply validIdAt_Some in Hvalid as (n & Hat & -> & Hn). right.
    exists n. destruct (chord_modifiers event) as [? ?]; [by right|].
    split_and!; [by right|done| |done..].
    simpl. by rewrite Hn.
Qed.

(** X19. At the edges nothing moves: the move to the previous note is
    passed through when the recorded index is [0] or absent, and the move
    to the next note is passed through when the recorded index is the
    last position or beyond. *)
Theorem shortcut_stops_at_edges (props : Props) (state : Selected)
    (event : KeyEvent) :
  (isPreviousChord event = true ∧ toNumber (index state) <= 0)
  ∨ (isPreviousChord event = false ∧ isNextChord event = true
     ∧ Z.of_nat (length (notes props)) - 1 <= toNumber (index state)) ->
  handleShortcut props state event = passThrough.
Proof.
  unfold NoteList.handleShortcut.
  intros [[-> Hidx]|(-> & -> & Hidx)].
  - destruct (bool_decide _); [done|]. destruct (_ <? 0); [done|].
    by rewrite NoteListFacts.validIdAt_outside by lia.
  - destruct (bool_decide _); [done|]. destruct (_ <=? _); [done|].
    by rewrite NoteListFacts.validIdAt_outside by lia.
Qed.

End Shortcuts.

Lemma shortcut_stops_at_edges_witness :
  let props := mkProps [Samples.noteA; Samples.noteB] (Some Samples.noteA)
                 None false in
  let event := mkKeyEvent false true true "ArrowUp" in
  ((isPreviousChord Samples.asciiLower event = true
    ∧ toNumber (index initialSelected) <= 0)
   ∨ (isPreviousChord Samples.asciiLower event = false
      ∧ isNextChord Samples.asciiLower event = true
      ∧ Z.of_nat (length (notes props)) - 1
        <= toNumber (index initialSelected)))
  ∧ handleShortcut Samples.asciiLower props initialSelected event
    = passThrough.
Proof.
  intros props event.
  assert (H : (isPreviousChord Samples.asciiLower event = true
               ∧ toNumber (index initialSelected) <= 0)
              ∨ (isPreviousChord Samples.asciiLower event = false
                 ∧ isNextChord Samples.asciiLower event = true
                 ∧ Z.of_nat (length (notes props)) - 1
                   <= toNumber (index initialSelected))).
  { left. split; [reflexivity|]. simpl. lia. }
  split; [exact H|].
  exact (shortcut_stops_at_edges Samples.asciiLower props initialSelected
           event H).
Defined.

End NoteListSelection.
